(** * csscolor: the Color value type of src/index.js and src/ColorAlpha.class.js

    A shallow embedding of the JavaScript source.  JavaScript numbers are
    IEEE 754 binary64 values, so they are modelled by Rocq's primitive
    [float]s, whose operations are the same binary64 operations (round to
    nearest, ties to even); [%], [Math.round] and the conversion of strings
    to numbers are computed exactly on the mantissa and exponent.  Code that
    can throw returns a [result].  The arguments of [new Color] are numbers
    or omitted, as its doc comment has them; [fromHSV] and [fromHSL] also
    accept a string, which [typeCheck] passes to them. *)

From Stdlib Require Import ZArith Floats String Ascii List Bool Lia.
Import ListNotations.

Set Warnings "-inexact-float".

Local Open Scope string_scope.
Local Open Scope float_scope.

(** ** Exceptions *)

Inductive error : Type :=
| TypeError.

Inductive result (A : Type) : Type :=
| Ok (a : A)
| Throw (e : error).

Arguments Ok {A} a.
Arguments Throw {A} e.

Definition bind {A B : Type} (r : result A) (k : A -> result B) : result B :=
  match r with
  | Ok a => k a
  | Throw e => Throw e
  end.

Notation "'let*' x ':=' r 'in' k" := (bind r (fun x => k))
  (at level 10, x name, r at level 100, k at level 200).

(** ** JavaScript numbers *)

Module JS.

Definition number : Type := float.

(** The number nearest to [m * 2^e] (ties to even); [szero] is the sign of a
    zero result. *)
Definition of_scaled (m e : Z) (szero : bool) : number :=
  SF2Prim (binary_normalize prec emax m e szero).

Definition of_Z (z : Z) : number := of_scaled z 0 false.

(** The number nearest to the rational [n / d], for positive [n] and [d]. *)
Definition of_ratio (s : bool) (n d : positive) : number :=
  SF2Prim (SFdiv prec emax (S754_finite s n 0) (S754_finite false d 0)).

(** [x % y]: the remainder of the truncating division, computed exactly; it
    has the sign of the dividend [x]. *)
Definition rem (x y : number) : number :=
  match Prim2SF x, Prim2SF y with
  | S754_nan, _ | _, S754_nan => nan
  | S754_infinity _, _ => nan
  | _, S754_zero _ => nan
  | _, S754_infinity _ => x
  | S754_zero _, _ => x
  | S754_finite sx mx ex, S754_finite _ my ey =>
      let e := Z.min ex ey in
      let X := Z.shiftl (Zpos mx) (ex - e) in
      let Y := Z.shiftl (Zpos my) (ey - e) in
      of_scaled (cond_Zopp sx (Z.rem X Y)) e sx
  end.

(** [Math.round]: the nearest integer, ties towards +infinity; a zero result
    keeps the sign of the argument. *)
Definition Math_round (x : number) : number :=
  match Prim2SF x with
  | S754_finite s m e =>
      if (0 <=? e)%Z then x
      else
        let d := Z.shiftl 1 (- e) in
        of_scaled ((2 * cond_Zopp s (Zpos m) + d) / (2 * d))%Z 0 s
  | _ => x
  end.

Definition Math_abs (x : number) : number := abs x.

Definition max2 (a b : number) : number :=
  if is_nan a || is_nan b then nan
  else if a <? b then b
  else if b <? a then a
  else if get_sign a then b else a.

Definition min2 (a b : number) : number :=
  if is_nan a || is_nan b then nan
  else if a <? b then a
  else if b <? a then b
  else if get_sign a then a else b.

(** [Math.max(a, b, c)] and [Math.min(a, b, c)]. *)
Definition Math_max (a b c : number) : number := max2 (max2 a b) c.
Definition Math_min (a b c : number) : number := min2 (min2 a b) c.

(** ToBoolean on a number: [+0], [-0] and [NaN] are falsy. *)
Definition truthy (x : number) : bool := negb (is_nan x || is_zero x).

(** [x || d] where [x] is a number. *)
Definition or_num (x d : number) : number := if truthy x then x else d.

(** [x || d] where [x] may be [undefined] (an omitted argument). *)
Definition or_else (x : option number) (d : number) : number :=
  match x with
  | Some n => or_num n d
  | None => d
  end.

(** [===] on numbers. *)
Definition strict_eq (x y : number) : bool := x =? y.

(** ToIntegerOrInfinity, [None] standing for the two infinities. *)
Definition to_integer (x : number) : option Z :=
  match Prim2SF x with
  | S754_nan | S754_zero _ => Some 0%Z
  | S754_infinity _ => None
  | S754_finite s m e =>
      Some (cond_Zopp s (if (0 <=? e)%Z then Z.shiftl (Zpos m) e
                         else Z.shiftr (Zpos m) (- e)))
  end.

(** [Array.prototype.indexOf] on an array of numbers; [-1] when absent. *)
Fixpoint indexOf_from (l : list number) (x : number) (i : Z) : Z :=
  match l with
  | [] => (-1)%Z
  | y :: l' => if strict_eq y x then i else indexOf_from l' x (i + 1)%Z
  end.

Definition indexOf (l : list number) (x : number) : Z := indexOf_from l x 0.

(** *** Strings

    A string is a sequence of character codes below 256. *)

Definition rel_index (len i : Z) : Z :=
  if (i <? 0)%Z then Z.max (len + i) 0 else Z.min i len.

(** [s.slice(start, stop)]: negative indices count from the end. *)
Definition slice (s : string) (start stop : Z) : string :=
  let len := Z.of_nat (String.length s) in
  let from := rel_index len start in
  let to := rel_index len stop in
  if (from <? to)%Z then substring (Z.to_nat from) (Z.to_nat (to - from)) s
  else "".

(** [s.charAt(pos)]: the empty string when [pos] is out of range. *)
Definition charAt (s : string) (pos : option Z) : string :=
  match pos with
  | Some i =>
      if (i <? 0)%Z then ""
      else match String.get (Z.to_nat i) s with
           | Some c => String c ""
           | None => ""
           end
  | None => ""
  end.

(** [s.split(sep)] for a separator of one character. *)
Fixpoint split (sep : ascii) (s : string) : list string :=
  match s with
  | EmptyString => [EmptyString]
  | String c s' =>
      if Ascii.eqb c sep then EmptyString :: split sep s'
      else match split sep s' with
           | p :: ps => String c p :: ps
           | [] => [String c EmptyString]
           end
  end.

(** White space and line terminators (tab, LF, VT, FF, CR, space, NBSP). *)
Definition is_white (c : ascii) : bool :=
  existsb (N.eqb (N_of_ascii c)) [9; 10; 11; 12; 13; 32; 160]%N.

Fixpoint trim_start (s : string) : string :=
  match s with
  | EmptyString => EmptyString
  | String c s' => if is_white c then trim_start s' else s
  end.

Fixpoint trim_end (s : string) : string :=
  match s with
  | EmptyString => EmptyString
  | String c s' =>
      match trim_end s' with
      | EmptyString => if is_white c then EmptyString else String c EmptyString
      | t => String c t
      end
  end.

Definition trim (s : string) : string := trim_end (trim_start s).

(** The value of [c] as a digit in the given base, if it is one. *)
Definition digit_of (base : N) (c : ascii) : option N :=
  let n := N_of_ascii c in
  let v :=
    if ((48 <=? n) && (n <=? 57))%N then Some (n - 48)%N
    else if ((97 <=? n) && (n <=? 102))%N then Some (n - 87)%N
    else if ((65 <=? n) && (n <=? 70))%N then Some (n - 55)%N
    else None in
  match v with
  | Some d => if (d <? base)%N then Some d else None
  | None => None
  end.

(** The longest prefix of digits: its value, its length and what follows. *)
Fixpoint digits (base : N) (s : string) (acc : N) (count : nat) : N * nat * string :=
  match s with
  | EmptyString => (acc, count, s)
  | String c s' =>
      match digit_of base c with
      | Some d => digits base s' (acc * base + d)%N (S count)
      | None => (acc, count, s)
      end
  end.

Definition sign_prefix (s : string) : bool * string :=
  match s with
  | String "-" s' => (true, s')
  | String "+" s' => (false, s')
  | _ => (false, s)
  end.

(** StrUnsignedDecimalLiteral without [Infinity]: mantissa and decimal
    exponent. *)
Definition parse_decimal (s : string) : option (N * Z) :=
  let '(ip, ni, r1) := digits 10 s 0 0 in
  let '(m, nf, r2) :=
    match r1 with
    | String "." r => digits 10 r ip 0
    | _ => (ip, 0%nat, r1)
    end in
  if Nat.eqb (ni + nf) 0 then None
  else
    match r2 with
    | EmptyString => Some (m, (- Z.of_nat nf)%Z)
    | String c r3 =>
        if Ascii.eqb c "e" || Ascii.eqb c "E" then
          let '(sg, r4) := sign_prefix r3 in
          let '(ev, ne, r5) := digits 10 r4 0 0 in
          match ne, r5 with
          | S _, EmptyString =>
              Some (m, (cond_Zopp sg (Z.of_N ev) - Z.of_nat nf)%Z)
          | _, _ => None
          end
        else None
    end.

Definition decimal_value (s : bool) (m : N) (k : Z) : number :=
  match m with
  | N0 => if s then PrimFloat.neg_zero else PrimFloat.zero
  | Npos p =>
      match k with
      | Zneg q => of_ratio s p (Pos.pow 10 q)
      | _ => of_scaled (cond_Zopp s (Zpos p * 10 ^ k)) 0 s
      end
  end.

Definition parse_radix (base : N) (s : string) : number :=
  match digits base s 0 0 with
  | (v, S _, EmptyString) => of_Z (Z.of_N v)
  | _ => nan
  end.

(** StringToNumber: the number a string converts to, [NaN] when it is not a
    numeric literal. *)
Definition StringToNumber (s : string) : number :=
  match trim s with
  | EmptyString => PrimFloat.zero
  | String "0" (String "x" r) | String "0" (String "X" r) => parse_radix 16 r
  | String "0" (String "o" r) | String "0" (String "O" r) => parse_radix 8 r
  | String "0" (String "b" r) | String "0" (String "B" r) => parse_radix 2 r
  | t =>
      let '(sg, r) := sign_prefix t in
      if String.eqb r "Infinity" then (if sg then neg_infinity else infinity)
      else match parse_decimal r with
           | Some (m, k) => decimal_value sg m k
           | None => nan
           end
  end.

(** The primitive values that reach the numeric code. *)
Inductive prim : Type :=
| Undefined
| Num (n : number)
| Str (s : string).

Definition ToNumber (v : prim) : number :=
  match v with
  | Undefined => nan
  | Num n => n
  | Str s => StringToNumber s
  end.

(** Unary plus on an array element that may be missing. *)
Definition plus_elem (e : option string) : number :=
  match e with
  | Some s => StringToNumber s
  | None => nan
  end.

End JS.

Import JS.

(** ** Color (src/index.js) *)

(** The nine fields the constructor assigns to [self]. *)
Record Color : Type := mkColor {
  _RED : number;
  _GREEN : number;
  _BLUE : number;
  _HSV_HUE : number;
  _HSV_VAL : number;
  _HSV_SAT : number;
  _HSL_HUE : number;
  _HSL_LUM : number;
  _HSL_SAT : number
}.

(** [new Color(red, grn, blu)]; an omitted argument is [None].  Indexing the
    array of the three hue functions outside [0..2] gives [undefined], whose
    [.apply] throws. *)
Definition new_Color (red grn blu : option number) : result Color :=
  let RED := or_else red 0 in
  let GREEN := or_else grn RED in
  let BLUE := or_else blu RED in
  let _max := Math_max RED GREEN BLUE / 255 in
  let _min := Math_min RED GREEN BLUE / 255 in
  let _chroma := _max - _min in
  let* HSV_HUE :=
    if strict_eq _chroma 0 then Ok 0
    else
      let r := RED / 255 in
      let g := GREEN / 255 in
      let b := BLUE / 255 in
      match indexOf [r; g; b] _max with
      | 0%Z => Ok (rem ((g - b) / _chroma) 6 * 60)
      | 1%Z => Ok (((b - r) / _chroma + 2) * 60)
      | 2%Z => Ok (((r - g) / _chroma + 4) * 60)
      | _ => Throw TypeError
      end in
  let HSV_VAL := _max in
  let HSV_SAT := _chroma / HSV_VAL in
  let HSL_HUE := HSV_HUE in
  let HSL_LUM := 0.5 * (_max + _min) in
  let HSL_SAT :=
    if strict_eq _chroma 0 then 0
    else _chroma / (if HSL_LUM <=? 0.5 then 2 * HSL_LUM else 2 - 2 * HSL_LUM) in
  Ok (mkColor RED GREEN BLUE HSV_HUE HSV_VAL HSV_SAT HSL_HUE HSL_LUM HSL_SAT).

(** *** Accessors *)

Definition red (c : Color) : number := _RED c.
Definition green (c : Color) : number := _GREEN c.
Definition blue (c : Color) : number := _BLUE c.
Definition hsvHue (c : Color) : number := _HSV_HUE c.
Definition hsvSat (c : Color) : number := _HSV_SAT c.
Definition hsvVal (c : Color) : number := _HSV_VAL c.
Definition hslHue (c : Color) : number := _HSL_HUE c.
Definition hslSat (c : Color) : number := _HSL_SAT c.
Definition hslLum (c : Color) : number := _HSL_LUM c.

Definition rgb (c : Color) : list number := [red c; green c; blue c].
Definition hsv (c : Color) : list number := [hsvHue c; hsvSat c; hsvVal c].
Definition hsl (c : Color) : list number := [hslHue c; hslSat c; hslLum c].

(** *** Static members *)

(** [Color.fromHSV(hue, sat, val)].  When no sextant test succeeds, [rgb]
    stays [undefined] and [rgb.map] throws. *)
Definition fromHSV (hue sat val : prim) : result Color :=
  let hue := ToNumber hue in
  let c := ToNumber sat * ToNumber val in
  let x := c * (1 - Math_abs (rem (hue / 60) 2 - 1)) in
  let m := ToNumber val - c in
  let rgb :=
    if (0 <=? hue) && (hue <? 60) then Some [c; x; 0]
    else if (60 <=? hue) && (hue <? 120) then Some [x; c; 0]
    else if (120 <=? hue) && (hue <? 180) then Some [0; c; x]
    else if (180 <=? hue) && (hue <? 240) then Some [0; x; c]
    else if (240 <=? hue) && (hue <? 300) then Some [x; 0; c]
    else if (300 <=? hue) && (hue <? 360) then Some [c; 0; x]
    else None in
  match rgb with
  | None => Throw TypeError
  | Some rgb =>
      let rgb := map (fun el => Math_round ((el + m) * 255)) rgb in
      new_Color (nth_error rgb 0) (nth_error rgb 1) (nth_error rgb 2)
  end.

(** [Color.fromHSL(hue, sat, lum)]. *)
Definition fromHSL (hue sat lum : prim) : result Color :=
  let hue := ToNumber hue in
  let c := ToNumber sat * (1 - Math_abs (2 * ToNumber lum - 1)) in
  let x := c * (1 - Math_abs (rem (hue / 60) 2 - 1)) in
  let m := ToNumber lum - c / 2 in
  let rgb :=
    if (0 <=? hue) && (hue <? 60) then Some [c; x; 0]
    else if (60 <=? hue) && (hue <? 120) then Some [x; c; 0]
    else if (120 <=? hue) && (hue <? 180) then Some [0; c; x]
    else if (180 <=? hue) && (hue <? 240) then Some [0; x; c]
    else if (240 <=? hue) && (hue <? 300) then Some [x; 0; c]
    else if (300 <=? hue) && (hue <? 360) then Some [c; 0; x]
    else None in
  match rgb with
  | None => Throw TypeError
  | Some rgb =>
      let rgb := map (fun el => Math_round ((el + m) * 255)) rgb in
      new_Color (nth_error rgb 0) (nth_error rgb 1) (nth_error rgb 2)
  end.

(** [Color.fromRGB(rgb_string)]. *)
Definition fromRGB (rgb_string : string) : result Color :=
  let splitted := split "," (slice rgb_string 4 (-1)) in
  new_Color (Some (plus_elem (nth_error splitted 0)))
            (Some (plus_elem (nth_error splitted 1)))
            (Some (plus_elem (nth_error splitted 2))).

Definition hex_digits : string := "0123456789abcdef".

(** The helper [toDec] of [fromHex]: the loop runs [i] over [0..15]. *)
Definition toDec (x : string) : number :=
  let step (st : Z * Z) (i : Z) : Z * Z :=
    let '(tens, ones) := st in
    (if String.eqb (charAt hex_digits (Some i)) (slice x 0 1) then (i * 16)%Z else tens,
     if String.eqb (charAt hex_digits (Some i)) (slice x 1 2) then i else ones) in
  let '(tens, ones) := fold_left step (map Z.of_nat (seq 0 16)) (0%Z, 0%Z) in
  of_Z (tens + ones).

(** [Color.fromHex(hex_string)]. *)
Definition fromHex (hex_string : string) : result Color :=
  let r_hex := slice hex_string 1 3 in
  let g_hex := slice hex_string 3 5 in
  let b_hex := slice hex_string 5 7 in
  new_Color (Some (toDec r_hex)) (Some (toDec g_hex)) (Some (toDec b_hex)).

(** What [typeCheck] can be given: a primitive, an instance of [Color] (given
    by its fields), or anything else ([null], a boolean, another object). *)
Inductive value : Type :=
| Prim (p : prim)
| Instance (c : Color)
| Other.

(** [Color.typeCheck(arg)].  The [hsv(] and [hsl(] branches call
    [fromHSV(arg)] and [fromHSL(arg)] with the string as the only argument. *)
Definition typeCheck (arg : value) : result Color :=
  match arg with
  | Instance c => Ok c
  | Prim (Str s) =>
      if String.eqb (slice s 0 1) "#" then fromHex s
      else if String.eqb (slice s 0 4) "rgb(" then fromRGB s
      else if String.eqb (slice s 0 4) "hsv(" then fromHSV (Str s) Undefined Undefined
      else if String.eqb (slice s 0 4) "hsl(" then fromHSL (Str s) Undefined Undefined
      else new_Color None None None
  | Prim (Num n) =>
      let graytone := min2 (max2 0 n) 255 in
      new_Color (Some graytone) (Some graytone) (Some graytone)
  | _ => new_Color None None None
  end.

(** *** Methods *)

Definition complement (this : Color) : result Color :=
  new_Color (Some (255 - red this)) (Some (255 - green this)) (Some (255 - blue this)).

Definition rotate (this : Color) (a : number) : result Color :=
  let newhue := rem (hsvHue this + a) 360 in
  fromHSV (Num newhue) (Num (hsvSat this)) (Num (hsvVal this)).

Definition invert (this : Color) : result Color := rotate this 180.

Definition average (a b w : number) : number := (a * (1 - w)) + (b * w).

(** [mix($color, w)]; [w] may be omitted. *)
Definition mix (this color : Color) (w : prim) : result Color :=
  let w_not_zero :=
    match w with
    | Num n => negb (strict_eq n 0)
    | _ => true
    end in
  let w := if w_not_zero then or_num (ToNumber w) 0.5 else ToNumber w in
  let r := Math_round (average (red this) (red color) w) in
  let g := Math_round (average (green this) (green color) w) in
  let b := Math_round (average (blue this) (blue color) w) in
  new_Color (Some r) (Some g) (Some b).

Definition equals (this color : Color) : bool :=
  strict_eq (red this) (red color)
  && strict_eq (green this) (green color)
  && strict_eq (blue this) (blue color).

Definition isGrayscale (this : Color) : bool := strict_eq (hsvSat this) 0.

(** The helper [toHex] of [toString]. *)
Definition toHex (n : number) : string :=
  (charAt hex_digits (to_integer ((n - rem n 16) / 16))
   ++ charAt hex_digits (to_integer (rem n 16)))%string.

(** [toString('hex')]. *)
Definition toString_hex (this : Color) : string :=
  ("#" ++ toHex (red this) ++ toHex (green this) ++ toHex (blue this))%string.

(** [saturate(p, relative)], [desaturate], [brighten] and [darken]; an
    omitted [relative] is [false]. *)
Definition saturate (this : Color) (p : number) (relative : bool) : result Color :=
  let newsat := hslSat this + (if relative then hslSat this * p else p) in
  let newsat := min2 (max2 0 newsat) 1 in
  fromHSL (Num (hslHue this)) (Num newsat) (Num (hslLum this)).

Definition desaturate (this : Color) (p : number) (relative : bool) : result Color :=
  saturate this (- p) relative.

Definition brighten (this : Color) (p : number) (relative : bool) : result Color :=
  let newlum := hslLum this + (if relative then hslLum this * p else p) in
  let newlum := min2 (max2 0 newlum) 1 in
  fromHSL (Num (hslHue this)) (Num (hslSat this)) (Num newlum).

Definition darken (this : Color) (p : number) (relative : bool) : result Color :=
  brighten this (- p) relative.

(** ** ColorAlpha (src/ColorAlpha.class.js) *)

(** An instance as the list of its own properties; reading a property that
    is absent gives [undefined], here [None]. *)
Definition object : Type := list (string * number).

Definition get_prop (o : object) (k : string) : option number :=
  option_map snd (find (fun kv => String.eqb (fst kv) k) o).

(** The nine properties that the constructor of src/index.js sets. *)
Definition Color_fields (c : Color) : object :=
  [("_RED", _RED c); ("_GREEN", _GREEN c); ("_BLUE", _BLUE c);
   ("_HSV_HUE", _HSV_HUE c); ("_HSV_VAL", _HSV_VAL c); ("_HSV_SAT", _HSV_SAT c);
   ("_HSL_HUE", _HSL_HUE c); ("_HSL_LUM", _HSL_LUM c); ("_HSL_SAT", _HSL_SAT c)].

(** Modelled from the spec: the superclass module ./Color.class.js that
    ColorAlpha.class.js requires is not under src/.  The spec says that
    ColorWithAlpha inherits red, green, blue and all derived fields of Color
    and that alpha is no field of Color: [super(red, green, blue)] is taken to
    be the constructor of src/index.js, storing its nine fields on the
    instance. *)
Definition super (red green blue : number) : result object :=
  let* c := new_Color (Some red) (Some green) (Some blue) in
  Ok (Color_fields c).

(** Modelled from the spec: the inherited [rgb] property read by
    [negative], which the missing superclass module defines; it is taken to
    hold the array of the three components. *)
Definition this_rgb (this : object) : list (option number) :=
  [get_prop this "_RED"; get_prop this "_GREEN"; get_prop this "_BLUE"].

(** A default parameter value replaces an omitted ([undefined]) argument. *)
Definition default (x : option number) (d : number) : number :=
  match x with
  | Some n => n
  | None => d
  end.

(** [new ColorAlpha(red, green, blue, alpha)]: the body of the constructor is
    the call of [super] alone. *)
Definition new_ColorAlpha (red green blue alpha : option number) : result object :=
  let red := default red 0 in
  let green := default green 0 in
  let blue := default blue 0 in
  let alpha := default alpha 1 in
  super red green blue.

(** ToNumber on a property that may be [undefined]. *)
Definition to_num (v : option number) : number :=
  match v with
  | Some n => n
  | None => nan
  end.

(** The fourth argument [1 - this.alpha] that [negative] passes on. *)
Definition negative_alpha (this : object) : number :=
  1 - to_num (get_prop this "alpha").

(** [negative()]: [new ColorAlpha(...this.rgb, 1 - this.alpha)]. *)
Definition negative (this : object) : result object :=
  let rgb := this_rgb this in
  new_ColorAlpha (nth 0 rgb None) (nth 1 rgb None) (nth 2 rgb None)
                 (Some (negative_alpha this)).

(** ** Definitions used to state the results on fromHex *)

(** The digit value the claim gives a character of a channel position: that
    of a lowercase hexadecimal digit, and 0 for any other or missing one. *)
Definition hex_value (c : option ascii) : Z :=
  match c with
  | Some a =>
      let n := Z.of_N (N_of_ascii a) in
      if ((48 <=? n) && (n <=? 57))%Z then (n - 48)%Z
      else if ((97 <=? n) && (n <=? 102))%Z then (n - 87)%Z
      else 0%Z
  | None => 0%Z
  end.

(** No character at the six channel positions is a lowercase hex digit other
    than 0. *)
Definition no_hex_digit (s : string) : bool :=
  forallb (fun i => Z.eqb (hex_value (get i s)) 0) (seq 1 6).

Definition char_string (c : option ascii) : string :=
  match c with
  | Some a => String a ""
  | None => ""
  end.

(** The two accumulators of the loop of [toDec], run separately. *)
Definition tens_of (d : string) : Z :=
  fold_left (fun tens i =>
               if String.eqb (charAt hex_digits (Some i)) d then (i * 16)%Z else tens)
            (map Z.of_nat (seq 0 16)) 0%Z.

Definition ones_of (d : string) : Z :=
  fold_left (fun ones i =>
               if String.eqb (charAt hex_digits (Some i)) d then i else ones)
            (map Z.of_nat (seq 0 16)) 0%Z.

(** ** Definitions used to state the results on mix *)

(** The 256 values of a channel. *)
Definition channels : list number := map (fun n => of_Z (Z.of_nat n)) (seq 0 256).

(** ** Definitions used to state the further results *)

(** The hue is a number in [0, 360). *)
Definition hue_in_range (h : number) : bool := (0 <=? h) && (h <? 360).

(** A color built by the constructor from three integers in [0, 255]. *)
Definition eight_bit (c : Color) : Prop :=
  exists r g b : Z,
    (0 <= r <= 255)%Z /\ (0 <= g <= 255)%Z /\ (0 <= b <= 255)%Z /\
    new_Color (Some (of_Z r)) (Some (of_Z g)) (Some (of_Z b)) = Ok c.

(** The HSL saturation the constructor derives from the largest component
    [x] and the smallest component [y]. *)
Definition hsl_sat_of (x y : number) : number :=
  let _max := x / 255 in
  let _min := y / 255 in
  let _chroma := _max - _min in
  let HSL_LUM := 0.5 * (_max + _min) in
  if strict_eq _chroma 0 then 0
  else _chroma / (if HSL_LUM <=? 0.5 then 2 * HSL_LUM else 2 - 2 * HSL_LUM).

(** The facts on one channel value that are checked by enumeration. *)
Definition chan_ok (x : number) : bool :=
  (0 <=? x) && (x <=? 255) && negb (is_nan x)
  && PrimFloat.Leibniz.eqb (max2 x x) x && PrimFloat.Leibniz.eqb (min2 x x) x
  && Bool.eqb (is_zero (x / 255)) (PrimFloat.Leibniz.eqb x 0)
  && Bool.eqb (x / 255 <? 1) (x <? 255)
  && Bool.eqb (truthy x) (negb (PrimFloat.Leibniz.eqb x 0))
  && existsb (PrimFloat.Leibniz.eqb (255 - x)) channels
  && PrimFloat.Leibniz.eqb (255 - (255 - x)) x
  && Bool.eqb (PrimFloat.Leibniz.eqb (255 - x) 0) (PrimFloat.Leibniz.eqb x 255).

(** The facts on two channel values that are checked by enumeration. *)
Definition pair_ok (x y : number) : bool :=
  let M := x / 255 in
  let m := y / 255 in
  let ch := M - m in
  let lum := 0.5 * (M + m) in
  (if (y <=? x) && (x <=? y) then PrimFloat.Leibniz.eqb x y else true)
  && (min2 x y <=? x) && (min2 x y <=? y) && (x <=? max2 x y) && (y <=? max2 x y)
  && (if y <=? x
      then (0 <=? M) && (M <=? 1) && (0 <=? lum) && (lum <=? 1)
           && (0 <=? hsl_sat_of x y) && (hsl_sat_of x y <=? 0x1.0000000000020p+0)
           && (if x <? 255 then hsl_sat_of x y <=? 1 else true)
           && Bool.eqb (strict_eq (hsl_sat_of x y) 0) (PrimFloat.Leibniz.eqb x y)
           && (if is_zero x then is_nan (ch / M)
               else (0 <=? ch / M) && (ch / M <=? 1)
                    && Bool.eqb (strict_eq (ch / M) 0) (PrimFloat.Leibniz.eqb x y))
      else true).

(** A sample color, (51, 102, 153). *)
Definition sample_color : Color := Eval vm_compute in
    match new_Color (Some 51) (Some 102) (Some 153) with
    | Ok c => c
    | Throw _ => mkColor 0 0 0 0 0 0 0 0 0
    end.

(** A color returned by the constructor. *)
Definition constructed (c : Color) : Prop :=
  exists r g b : option number, new_Color r g b = Ok c.

Definition is_hex_digit (a : ascii) : bool :=
  existsb (Ascii.eqb a) (list_ascii_of_string hex_digits).

(** [toHex] gives two lowercase hexadecimal digits that [toDec] reads back. *)
Definition hex_ok (x : number) : bool :=
  match toHex x with
  | String a (String b EmptyString) =>
      is_hex_digit a && is_hex_digit b
      && PrimFloat.Leibniz.eqb (toDec (String a (String b EmptyString))) x
  | _ => false
  end.

(** The string has no comma. *)
Definition no_comma (s : string) : bool :=
  forallb (fun a => negb (Ascii.eqb a ",")) (list_ascii_of_string s).

(** A sample instance, [new ColorAlpha(10, 20, 30, 0.75)]. *)
Definition sample_alpha : object := Eval vm_compute in
    match new_ColorAlpha (Some 10) (Some 20) (Some 30) (Some 0.75) with
    | Ok o => o
    | Throw _ => []
    end.

(** * Results *)

(** Goals about closed terms are settled by evaluation. *)
Ltac evaluate := vm_compute; reflexivity.

(** ** Sanity checks of the embedding *)

Example rem_neg : rem (-1) 6 = -1.
Proof. evaluate. Qed.

Example rem_wrap : rem 725 360 = 5.
Proof. evaluate. Qed.

Example rem_frac : rem 5.5 2 = 1.5.
Proof. evaluate. Qed.

Example round_half_up : Math_round 0.5 = 1 /\ Math_round 2.5 = 3 /\ Math_round (-2.5) = -2.
Proof. vm_compute. auto. Qed.

Example round_below_half : Math_round 0x1.fffffffffffffp-2 = 0.
Proof. evaluate. Qed.

Example of_ratio_tenth : of_ratio false 1 10 = 0.1 /\ of_ratio false 1 3 = 1 / 3.
Proof. vm_compute. auto. Qed.

Example slice_rgb : slice "rgb(1, 2, 3)" 4 (-1) = "1, 2, 3".
Proof. reflexivity. Qed.

Example split_rgb : split "," "1, 2, 3" = ["1"; " 2"; " 3"].
Proof. reflexivity. Qed.

Example to_number_samples :
  StringToNumber " 102" = 102 /\ StringToNumber "" = 0 /\
  StringToNumber "1.5e2" = 150 /\ StringToNumber "0.1" = 0.1 /\
  StringToNumber "0xff" = 255 /\ StringToNumber "-Infinity" = neg_infinity /\
  StringToNumber "hsv(0, 1, 1)" = nan /\ StringToNumber "12px" = nan.
Proof. vm_compute. repeat split. Qed.

Example fromHex_336699 :
  exists c, fromHex "#336699" = Ok c /\ rgb c = [51; 102; 153].
Proof. eexists; split; [evaluate | reflexivity]. Qed.

Example fromRGB_sample :
  fromRGB "rgb(51, 102, 153)" = fromHex "#336699".
Proof. evaluate. Qed.

Example mix_even :
  (let* a := new_Color (Some 200) None None in
   let* b := new_Color None None None in
   mix a b Undefined) = new_Color (Some 100) None None.
Proof. evaluate. Qed.

(** ** Facts on binary64 numbers *)

Section FloatFacts.

Lemma SFcompare_refl (x : spec_float) :
  x <> S754_nan -> SFcompare x x = Some Eq.
Proof.
  destruct x as [s | s | | s m e]; intros H; try congruence;
    destruct s; simpl; try reflexivity;
    rewrite Z.compare_refl, Pos.compare_cont_refl; reflexivity.
Qed.

Lemma is_nan_false_iff (x : float) :
  is_nan x = false <-> Prim2SF x <> S754_nan.
Proof.
  unfold is_nan. rewrite FloatAxioms.eqb_spec. unfold SFeqb. split.
  - intros H E. rewrite E in H. discriminate.
  - intros H. rewrite SFcompare_refl by assumption. reflexivity.
Qed.

Lemma shr_1_nonneg (mrs : shr_record) :
  (0 <= shr_m mrs)%Z -> (0 <= shr_m (shr_1 mrs))%Z.
Proof.
  destruct mrs as [m r s]. destruct m as [| [p | p |] | [p | p |]]; simpl; lia.
Qed.

Lemma iter_shr_1_nonneg (p : positive) :
  forall mrs, (0 <= shr_m mrs)%Z -> (0 <= shr_m (iter_pos shr_1 p mrs))%Z.
Proof.
  induction p as [p IH | p IH |]; intros mrs H; simpl.
  - apply IH, IH, shr_1_nonneg, H.
  - apply IH, IH, H.
  - apply shr_1_nonneg, H.
Qed.

Lemma shr_fexp_nonneg (m e : Z) (l : location) :
  (0 <= m)%Z -> (0 <= shr_m (fst (shr_fexp prec emax m e l)))%Z.
Proof.
  intros H. unfold shr_fexp, shr.
  assert (H0 : (0 <= shr_m (shr_record_of_loc m l))%Z)
    by (destruct l as [| []]; exact H).
  destruct (fexp prec emax (Zdigits2 m + e) - e)%Z; simpl; try exact H0.
  apply iter_shr_1_nonneg, H0.
Qed.

Lemma round_nearest_even_nonneg (m : Z) (l : location) :
  (0 <= m)%Z -> (0 <= round_nearest_even m l)%Z.
Proof.
  intros H. destruct l as [| []]; simpl; try lia.
  destruct (Z.even m); lia.
Qed.

Lemma binary_round_aux_not_nan (s : bool) (m e : Z) (l : location) :
  (0 <= m)%Z -> binary_round_aux prec emax s m e l <> S754_nan.
Proof.
  intros H. unfold binary_round_aux.
  pose proof (shr_fexp_nonneg m e l H) as H1.
  destruct (shr_fexp prec emax m e l) as [mrs' e']. simpl in H1.
  pose proof (shr_fexp_nonneg _ e' loc_Exact
                (round_nearest_even_nonneg _ (loc_of_shr_record mrs') H1)) as H2.
  destruct (shr_fexp prec emax (round_nearest_even (shr_m mrs') (loc_of_shr_record mrs')) e' loc_Exact)
    as [mrs'' e'']. simpl in H2.
  destruct (shr_m mrs'') as [| p | p]; try discriminate; try lia.
  destruct (e'' <=? emax - prec)%Z; discriminate.
Qed.

Lemma SFdiv_finite_not_nan (x : spec_float) (s : bool) (m : positive) (e : Z) :
  x <> S754_nan -> SFdiv prec emax x (S754_finite s m e) <> S754_nan.
Proof.
  intros H. destruct x as [sx | sx | | sx mx ex]; try congruence; try discriminate.
  unfold SFdiv, SFdiv_core_binary.
  set (m' := match _ with Zpos _ => _ | Z0 => _ | Zneg _ => _ end).
  assert (Hm' : (0 <= m')%Z).
  { subst m'. destruct (_ - _ - _)%Z; try lia. apply Z.shiftl_nonneg. lia. }
  pose proof (Z.div_pos m' (Zpos m) Hm' eq_refl) as Hq.
  unfold Z.div in Hq.
  destruct (Z.div_eucl m' (Zpos m)) as [q r]. simpl in Hq.
  apply binary_round_aux_not_nan, Hq.
Qed.

Lemma div_finite_not_nan (x y : float) (s : bool) (m : positive) (e : Z) :
  Prim2SF y = S754_finite s m e -> is_nan x = false -> is_nan (x / y) = false.
Proof.
  intros Hy Hx. apply is_nan_false_iff. rewrite div_spec. unfold SF64div.
  rewrite Hy. apply SFdiv_finite_not_nan. apply is_nan_false_iff, Hx.
Qed.

Lemma div_255_not_nan (x : float) : is_nan x = false -> is_nan (x / 255) = false.
Proof.
  apply (div_finite_not_nan x 255 false 0x1fe00000000000 (-45)).
  vm_compute. reflexivity.
Qed.

Lemma SFadd_comm (x y : spec_float) : SFadd prec emax x y = SFadd prec emax y x.
Proof.
  destruct x as [sx | sx | | sx mx ex], y as [sy | sy | | sy my ey];
    try reflexivity; try (destruct sx, sy; reflexivity).
  unfold SFadd. rewrite (Z.min_comm ey ex), Z.add_comm. reflexivity.
Qed.

Lemma add_comm (x y : number) : x + y = y + x.
Proof.
  apply Prim2SF_inj. rewrite !add_spec. apply SFadd_comm.
Qed.

End FloatFacts.

(** ** The constructor *)

Lemma truthy_not_nan (x : number) : truthy x = true -> is_nan x = false.
Proof.
  unfold truthy. destruct (is_nan x); [discriminate | reflexivity].
Qed.

Lemma truthy_intro (x : number) :
  is_nan x = false -> strict_eq x 0 = false -> truthy x = true.
Proof.
  unfold truthy, strict_eq, is_zero, PrimFloat.zero. intros -> ->. reflexivity.
Qed.

Lemma or_num_not_nan (x d : number) :
  is_nan d = false -> is_nan (or_num x d) = false.
Proof.
  intros Hd. unfold or_num. destruct (truthy x) eqn:E; [| exact Hd].
  apply truthy_not_nan, E.
Qed.

Lemma or_else_not_nan (x : option number) (d : number) :
  is_nan d = false -> is_nan (or_else x d) = false.
Proof.
  intros Hd. destruct x as [n |]; [apply or_num_not_nan, Hd | exact Hd].
Qed.

Lemma or_num_idem (x d : number) : or_num (or_num x d) d = or_num x d.
Proof.
  unfold or_num. destruct (truthy x) eqn:E.
  - rewrite E. reflexivity.
  - destruct (truthy d); reflexivity.
Qed.

Lemma or_else_idem (x : option number) (d : number) :
  or_num (or_else x d) d = or_else x d.
Proof.
  destruct x as [n |]; simpl.
  - apply or_num_idem.
  - unfold or_num. destruct (truthy d); reflexivity.
Qed.

Lemma max2_cases (a b : number) :
  is_nan a = false -> is_nan b = false -> max2 a b = a \/ max2 a b = b.
Proof.
  intros Ha Hb. unfold max2. rewrite Ha, Hb. simpl.
  destruct (a <? b), (b <? a), (get_sign a); auto.
Qed.

Lemma Math_max_cases (a b c : number) :
  is_nan a = false -> is_nan b = false -> is_nan c = false ->
  Math_max a b c = a \/ Math_max a b c = b \/ Math_max a b c = c.
Proof.
  intros Ha Hb Hc. unfold Math_max.
  destruct (max2_cases a b Ha Hb) as [E | E]; rewrite E.
  - destruct (max2_cases a c Ha Hc) as [E' | E']; rewrite E'; auto.
  - destruct (max2_cases b c Hb Hc) as [E' | E']; rewrite E'; auto.
Qed.

Lemma strict_eq_refl (x : number) : is_nan x = false -> strict_eq x x = true.
Proof.
  unfold strict_eq, is_nan. destruct (x =? x); [reflexivity | discriminate].
Qed.

(** [indexOf] finds the maximum among the three normalized components. *)
Lemma indexOf_max_found (R G B : number) :
  is_nan R = false -> is_nan G = false -> is_nan B = false ->
  let i := indexOf [R / 255; G / 255; B / 255] (Math_max R G B / 255) in
  i = 0%Z \/ i = 1%Z \/ i = 2%Z.
Proof.
  intros HR HG HB. unfold indexOf. simpl.
  pose proof (strict_eq_refl _ (div_255_not_nan R HR)) as ER.
  pose proof (strict_eq_refl _ (div_255_not_nan G HG)) as EG.
  pose proof (strict_eq_refl _ (div_255_not_nan B HB)) as EB.
  destruct (Math_max_cases R G B HR HG HB) as [E | [E | E]]; rewrite E.
  - rewrite ER. auto.
  - rewrite EG. destruct (strict_eq (R / 255) (G / 255)); auto.
  - rewrite EB. destruct (strict_eq (R / 255) (B / 255)); auto.
    destruct (strict_eq (G / 255) (B / 255)); auto.
Qed.

(** [new Color(red, grn, blu)] returns a color for all arguments that are
    numbers or omitted. *)
Lemma new_Color_total (red grn blu : option number) :
  exists c, new_Color red grn blu = Ok c.
Proof.
  unfold new_Color.
  set (RED := or_else red 0).
  set (GREEN := or_else grn RED).
  set (BLUE := or_else blu RED).
  assert (HR : is_nan RED = false) by (apply or_else_not_nan; reflexivity).
  assert (HG : is_nan GREEN = false) by (apply or_else_not_nan, HR).
  assert (HB : is_nan BLUE = false) by (apply or_else_not_nan, HR).
  destruct (strict_eq (Math_max RED GREEN BLUE / 255 - Math_min RED GREEN BLUE / 255) 0).
  - eexists. reflexivity.
  - destruct (indexOf_max_found RED GREEN BLUE HR HG HB) as [E | [E | E]];
      rewrite E; eexists; reflexivity.
Qed.

(** The stored components are the arguments after the [||] defaults. *)
Lemma new_Color_rgb (red grn blu : option number) (c : Color) :
  new_Color red grn blu = Ok c ->
  _RED c = or_else red 0 /\
  _GREEN c = or_else grn (or_else red 0) /\
  _BLUE c = or_else blu (or_else red 0).
Proof.
  unfold new_Color.
  destruct (strict_eq _ 0).
  - intros H. injection H as <-. auto.
  - destruct (indexOf _ _) as [| [p | p |] |]; try discriminate;
      try destruct p; try discriminate; intros H; injection H as <-; auto.
Qed.

(** Three arguments that are neither 0 nor NaN are stored as they are. *)
Lemma new_Color_nonzero (r g b : number) (c : Color) :
  truthy r = true -> truthy g = true -> truthy b = true ->
  new_Color (Some r) (Some g) (Some b) = Ok c ->
  rgb c = [r; g; b].
Proof.
  intros Hr Hg Hb H. destruct (new_Color_rgb _ _ _ _ H) as (ER & EG & EB).
  unfold rgb, red, green, blue. rewrite ER, EG, EB.
  cbn [or_else]. unfold or_num. rewrite Hr, Hg, Hb. reflexivity.
Qed.

(** Building a color again from its own components gives the same color. *)
Lemma new_Color_idem (red grn blu : option number) (c : Color) :
  new_Color red grn blu = Ok c ->
  new_Color (Some (_RED c)) (Some (_GREEN c)) (Some (_BLUE c)) = Ok c.
Proof.
  intros H. destruct (new_Color_rgb _ _ _ _ H) as (ER & EG & EB).
  rewrite <- H, ER, EG, EB. unfold new_Color. cbn [or_else].
  rewrite !or_else_idem. reflexivity.
Qed.

(** C1 (code defect).  The constructor replaces a green or blue argument equal
    to 0 by the red component ([grn || self._RED]): [new Color(255, 0, 0)] is
    white, with hsv (0, 0, 1), hsl (0, 0, 1) and hex string "#ffffff", where
    the claim has red (255, 0, 0), hsv (0, 1, 1), hsl (0, 1, 0.5) and
    "#ff0000".  No arguments give black and one argument [v] gives (v, v, v),
    as claimed. *)
Theorem C1_Color_255_0_0_is_white :
  (exists c, new_Color (Some 255) (Some 0) (Some 0) = Ok c /\
     rgb c = [255; 255; 255] /\ hsv c = [0; 0; 1] /\ hsl c = [0; 0; 1] /\
     toString_hex c = "#ffffff") /\
  (exists c, new_Color None None None = Ok c /\ rgb c = [0; 0; 0]) /\
  (exists c, new_Color (Some 7) None None = Ok c /\ rgb c = [7; 7; 7]).
Proof.
  repeat split; eexists; (split; [evaluate | vm_compute; auto]).
Qed.

(** C8 (code defect).  [complement()] builds [new Color(255 - r, 255 - g,
    255 - b)], and the constructor replaces a green or blue 0 by red: the
    complement of (100, 255, 50) is (155, 155, 205), not (155, 0, 205), and
    complementing twice gives (100, 100, 50). *)
Theorem C8_complement_loses_zero :
  exists c c1 c2, new_Color (Some 100) (Some 255) (Some 50) = Ok c /\
    rgb c = [100; 255; 50] /\
    complement c = Ok c1 /\ rgb c1 = [155; 155; 205] /\
    complement c1 = Ok c2 /\ rgb c2 = [100; 100; 50].
Proof.
  do 3 eexists.
  split; [evaluate |]. split; [reflexivity |].
  split; [evaluate |]. split; [reflexivity |].
  split; [evaluate | reflexivity].
Qed.

(** ** The derived HSV and HSL values *)

Lemma negative_cases (h : number) :
  (h <? 0) = true ->
  Prim2SF h = S754_infinity true \/ exists m e, Prim2SF h = S754_finite true m e.
Proof.
  rewrite ltb_spec. change (Prim2SF 0) with (S754_zero false).
  unfold SFltb. destruct (Prim2SF h) as [s | [] | | [] m e]; simpl;
    try discriminate; eauto.
Qed.

(** A negative number is below every non-negative finite bound. *)
Lemma leb_negative (k h : number) (m : positive) (e : Z) :
  Prim2SF k = S754_finite false m e -> (h <? 0) = true -> (k <=? h) = false.
Proof.
  intros Hk Hh. rewrite leb_spec, Hk. unfold SFleb.
  destruct (negative_cases h Hh) as [-> | (m' & e' & ->)]; reflexivity.
Qed.

Lemma leb_zero_negative (h : number) : (h <? 0) = true -> (0 <=? h) = false.
Proof.
  intros Hh. rewrite leb_spec. change (Prim2SF 0) with (S754_zero false).
  unfold SFleb.
  destruct (negative_cases h Hh) as [-> | (m' & e' & ->)]; reflexivity.
Qed.

(** [fromHSV] and [fromHSL] throw on every negative hue. *)
Lemma fromHSV_negative_hue (h : number) (sat val : prim) :
  (h <? 0) = true -> fromHSV (Num h) sat val = Throw TypeError.
Proof.
  intros Hh. unfold fromHSV. cbn [ToNumber].
  rewrite (leb_zero_negative h Hh).
  rewrite (leb_negative 60 h 0x1e000000000000 (-47) eq_refl Hh).
  rewrite (leb_negative 120 h 0x1e000000000000 (-46) eq_refl Hh).
  rewrite (leb_negative 180 h 0x16800000000000 (-45) eq_refl Hh).
  rewrite (leb_negative 240 h 0x1e000000000000 (-45) eq_refl Hh).
  rewrite (leb_negative 300 h 0x12c00000000000 (-44) eq_refl Hh).
  reflexivity.
Qed.

Lemma fromHSL_negative_hue (h : number) (sat lum : prim) :
  (h <? 0) = true -> fromHSL (Num h) sat lum = Throw TypeError.
Proof.
  intros Hh. unfold fromHSL. cbn [ToNumber].
  rewrite (leb_zero_negative h Hh).
  rewrite (leb_negative 60 h 0x1e000000000000 (-47) eq_refl Hh).
  rewrite (leb_negative 120 h 0x1e000000000000 (-46) eq_refl Hh).
  rewrite (leb_negative 180 h 0x16800000000000 (-45) eq_refl Hh).
  rewrite (leb_negative 240 h 0x1e000000000000 (-45) eq_refl Hh).
  rewrite (leb_negative 300 h 0x12c00000000000 (-44) eq_refl Hh).
  reflexivity.
Qed.

(** [rotate] throws whenever the remainder it computes is negative. *)
Lemma rotate_negative (c : Color) (a : number) :
  (rem (hsvHue c + a) 360 <? 0) = true -> rotate c a = Throw TypeError.
Proof. intros H. apply fromHSV_negative_hue, H. Qed.

(** C2 (code defect).  [_HSV_SAT] is [_chroma / _HSV_VAL] with no guard: for
    black, whose three components are equal, it is 0/0 = NaN, and
    [isGrayscale()], which tests [hsvSat() === 0], answers false. *)
Theorem C2_black_is_not_grayscale :
  exists c, new_Color None None None = Ok c /\
    red c = 0 /\ green c = 0 /\ blue c = 0 /\
    hsvSat c = nan /\ isGrayscale c = false /\ hslSat c = 0.
Proof.
  eexists; split; [evaluate | vm_compute; auto 10].
Qed.

(** C3 (code defect).  When red is the maximum and green is below blue,
    [(g - b) / _chroma % 6] keeps the sign of its negative dividend:
    the hue of [new Color(255, 1, 2)] is negative, outside [0, 360). *)
Theorem C3_hue_negative :
  exists c, new_Color (Some 255) (Some 1) (Some 2) = Ok c /\
    rgb c = [255; 1; 2] /\ (hsvHue c <? 0) = true /\ (-1 <? hsvHue c) = true.
Proof.
  eexists; split; [evaluate | vm_compute; auto].
Qed.

(** C4 (code defect).  The HSV and HSL triples derived for
    [new Color(255, 1, 2)] have a negative hue, which no sextant test of
    [fromHSV] or [fromHSL] accepts: both reconstructions throw instead of
    returning a color within 1 of (255, 1, 2). *)
Theorem C4_round_trip_throws :
  exists c, new_Color (Some 255) (Some 1) (Some 2) = Ok c /\
    fromHSV (Num (hsvHue c)) (Num (hsvSat c)) (Num (hsvVal c)) = Throw TypeError /\
    fromHSL (Num (hslHue c)) (Num (hslSat c)) (Num (hslLum c)) = Throw TypeError.
Proof.
  eexists; split; [evaluate | vm_compute; auto].
Qed.

(** C5 (code defect).  [rotate] wraps with [%], which leaves a negative sum
    negative: rotating green (hue 120) by -180 degrees hands hue -60 to
    [fromHSV], which throws.  [invert()] is [rotate(180)] by definition. *)
Theorem C5_rotate_negative_throws :
  (exists c, new_Color (Some 0) (Some 255) (Some 0) = Ok c /\
     hsvHue c = 120 /\ rem (hsvHue c + -180) 360 = -60 /\
     rotate c (-180) = Throw TypeError) /\
  (forall c, invert c = rotate c 180).
Proof.
  split; [| reflexivity].
  eexists; split; [evaluate | vm_compute; auto].
Qed.

(** ** typeCheck *)

Lemma get_beyond (s : string) :
  forall n, (String.length s <= n)%nat -> get n s = None.
Proof.
  induction s as [| c s IH]; intros n H; simpl.
  - reflexivity.
  - destruct n as [| n]; simpl in H; [lia |]. apply IH. lia.
Qed.

Lemma substring_one (s : string) :
  forall n, substring n 1 s =
            match get n s with Some c => String c "" | None => "" end.
Proof.
  induction s as [| c s IH]; intros [| n]; simpl; try reflexivity.
  - destruct s; reflexivity.
  - apply IH.
Qed.

(** [x.slice(i, i + 1)] is [x.charAt(i)]. *)
Lemma slice_charAt (x : string) (i : nat) :
  slice x (Z.of_nat i) (Z.of_nat i + 1) = charAt x (Some (Z.of_nat i)).
Proof.
  unfold slice, charAt, rel_index.
  replace (Z.of_nat i <? 0)%Z with false by (symmetry; apply Z.ltb_ge; lia).
  replace (Z.of_nat i + 1 <? 0)%Z with false by (symmetry; apply Z.ltb_ge; lia).
  rewrite Nat2Z.id.
  destruct (Z.min (Z.of_nat i) _ <? Z.min (Z.of_nat i + 1) _)%Z eqn:E.
  - apply Z.ltb_lt in E.
    replace (Z.to_nat (Z.min (Z.of_nat i) (Z.of_nat (String.length x)))) with i by lia.
    replace (Z.to_nat _) with 1%nat by lia.
    apply substring_one.
  - apply Z.ltb_ge in E. rewrite get_beyond by lia. reflexivity.
Qed.

Lemma charAt_get (x : string) (i : nat) :
  charAt x (Some (Z.of_nat i)) = char_string (get i x).
Proof.
  unfold charAt.
  replace (Z.of_nat i <? 0)%Z with false by (symmetry; apply Z.ltb_ge; lia).
  rewrite Nat2Z.id. reflexivity.
Qed.

Lemma slice_head (s : string) (a : ascii) (t : string) :
  slice s 0 4 = String a t -> exists r, s = String a r.
Proof.
  destruct s as [| c r]; [discriminate |].
  unfold slice, rel_index. cbn [Z.ltb Z.compare].
  set (len := Z.of_nat (String.length (String c r))).
  assert (Hlen : (1 <= len)%Z) by (subst len; simpl String.length; lia).
  destruct (Z.min 0 len <? Z.min 4 len)%Z eqn:E; [| discriminate].
  replace (Z.to_nat (Z.min 0 len)) with 0%nat by lia.
  destruct (Z.to_nat (Z.min 4 len - Z.min 0 len)) as [| n] eqn:En; [lia |].
  simpl. intros H. injection H as -> _. eexists. reflexivity.
Qed.

Lemma StringToNumber_h (r : string) : StringToNumber (String "h" r) = nan.
Proof.
  unfold StringToNumber, trim. cbn [trim_start].
  change (is_white "h") with false. cbv iota.
  cbn [trim_end]. destruct (trim_end r); reflexivity.
Qed.

Lemma fromHSV_string_throws (r : string) :
  fromHSV (Str (String "h" r)) Undefined Undefined = Throw TypeError.
Proof.
  unfold fromHSV, ToNumber. rewrite StringToNumber_h. reflexivity.
Qed.

Lemma fromHSL_string_throws (r : string) :
  fromHSL (Str (String "h" r)) Undefined Undefined = Throw TypeError.
Proof.
  unfold fromHSL, ToNumber. rewrite StringToNumber_h. reflexivity.
Qed.

Lemma Ok_not_Throw {A : Type} (r : result A) (e : error) :
  (exists a, r = Ok a) -> r <> Throw e.
Proof. intros [a ->]. discriminate. Qed.

(** [typeCheck] throws exactly on the strings that start with [hsv(] or
    [hsl(]; on every other argument it returns a color. *)
Lemma typeCheck_throws_iff (arg : value) :
  typeCheck arg = Throw TypeError <->
  exists s, arg = Prim (Str s) /\ (slice s 0 4 = "hsv(" \/ slice s 0 4 = "hsl(").
Proof.
  split.
  - destruct arg as [[| n | s] | c |]; simpl; intros H;
      try (exfalso; revert H; apply Ok_not_Throw, new_Color_total);
      try discriminate.
    exists s. split; [reflexivity |].
    destruct (String.eqb (slice s 0 1) "#").
    { exfalso; revert H; apply Ok_not_Throw. unfold fromHex. apply new_Color_total. }
    destruct (String.eqb (slice s 0 4) "rgb(").
    { exfalso; revert H; apply Ok_not_Throw. unfold fromRGB. apply new_Color_total. }
    destruct (String.eqb (slice s 0 4) "hsv(") eqn:E1.
    { left. apply String.eqb_eq, E1. }
    destruct (String.eqb (slice s 0 4) "hsl(") eqn:E2.
    { right. apply String.eqb_eq, E2. }
    exfalso; revert H; apply Ok_not_Throw, new_Color_total.
  - intros (s & -> & H).
    assert (Hs : exists r, s = String "h" r)
      by (destruct H as [H | H]; apply (slice_head _ _ _ H)).
    destruct Hs as [r ->]. simpl typeCheck.
    change 1%Z with (Z.of_nat 0 + 1)%Z. change 0%Z with (Z.of_nat 0) at 1.
    rewrite slice_charAt, charAt_get. cbn [get char_string].
    change (String.eqb "h" "#") with false. cbv iota.
    change (Z.of_nat 0) with 0%Z.
    destruct H as [H | H]; rewrite H.
    + apply fromHSV_string_throws.
    + apply fromHSL_string_throws.
Qed.

(** C6 (code defect).  [typeCheck] passes an [hsv(] or [hsl(] string whole,
    as the only argument, to [fromHSV] or [fromHSL], which expect three
    numbers: the string converts to NaN, no sextant test succeeds, and the
    call throws. *)
Theorem C6_typeCheck_hsv_string_throws :
  typeCheck (Prim (Str "hsv(0, 1, 1)")) = Throw TypeError /\
  typeCheck (Prim (Str "hsl(0, 1, 0.5)")) = Throw TypeError.
Proof. vm_compute. auto. Qed.

(** ** ColorAlpha *)

(** No instance built by the constructor has an alpha property. *)
Lemma new_ColorAlpha_no_alpha (red green blue alpha : option number) (o : object) :
  new_ColorAlpha red green blue alpha = Ok o -> get_prop o "alpha" = None.
Proof.
  unfold new_ColorAlpha, super.
  destruct (new_Color _ _ _) as [c | e]; simpl; [| discriminate].
  intros H. injection H as <-. reflexivity.
Qed.

(** C7 (code defect).  The constructor of ColorAlpha only calls [super]: the
    alpha argument is stored nowhere.  The alpha of
    [new ColorAlpha(10, 20, 30, 0.75)] and of [new ColorAlpha()] is
    [undefined], [negative()] computes 1 - undefined = NaN as the new alpha,
    and its result has no alpha either; the three components are kept. *)
Theorem C7_alpha_is_dropped :
  (exists o, new_ColorAlpha (Some 10) (Some 20) (Some 30) (Some 0.75) = Ok o /\
     get_prop o "alpha" = None /\
     negative_alpha o = nan /\
     exists o', negative o = Ok o' /\ get_prop o' "alpha" = None /\
       this_rgb o' = [Some 10; Some 20; Some 30]) /\
  (exists o, new_ColorAlpha None None None None = Ok o /\ get_prop o "alpha" = None).
Proof.
  split.
  - eexists; split; [evaluate |].
    split; [reflexivity |]. split; [evaluate |].
    eexists; split; [evaluate | vm_compute; auto].
  - eexists; split; [evaluate | reflexivity].
Qed.

(** ** mix *)

Lemma channel_of_Z (z : Z) : (0 <= z <= 255)%Z -> In (of_Z z) channels.
Proof.
  intros H. unfold channels.
  replace z with (Z.of_nat (Z.to_nat z)) by lia.
  apply (in_map (fun n => of_Z (Z.of_nat n))), in_seq. lia.
Qed.

Lemma channel_or_num (x d : number) :
  In x channels -> In d channels -> In (or_num x d) channels.
Proof.
  intros Hx Hd. unfold or_num. destruct (truthy x); assumption.
Qed.

Lemma average_ends :
  forallb (fun x => forallb (fun y =>
     PrimFloat.Leibniz.eqb (Math_round (average x y 0)) x
     && PrimFloat.Leibniz.eqb (Math_round (average x y 1)) y) channels) channels = true.
Proof. evaluate. Qed.

Lemma average_ends_spec (x y : number) :
  In x channels -> In y channels ->
  Math_round (average x y 0) = x /\ Math_round (average x y 1) = y.
Proof.
  intros Hx Hy.
  pose proof average_ends as H.
  rewrite forallb_forall in H. specialize (H x Hx).
  rewrite forallb_forall in H. specialize (H y Hy).
  apply andb_true_iff in H. destruct H as [H0 H1].
  split; apply FloatAxioms.Leibniz.eqb_spec; assumption.
Qed.

(** The components of a color built from three integers in [0, 255] are
    channel values. *)
Lemma new_Color_channels (r g b : Z) (c : Color) :
  (0 <= r <= 255)%Z -> (0 <= g <= 255)%Z -> (0 <= b <= 255)%Z ->
  new_Color (Some (of_Z r)) (Some (of_Z g)) (Some (of_Z b)) = Ok c ->
  In (red c) channels /\ In (green c) channels /\ In (blue c) channels.
Proof.
  intros Hr Hg Hb H. destruct (new_Color_rgb _ _ _ _ H) as (ER & EG & EB).
  unfold red, green, blue. rewrite ER, EG, EB. cbn [or_else].
  assert (H0 : In 0 channels) by (apply (channel_of_Z 0); lia).
  assert (HR : In (or_num (of_Z r) 0) channels)
    by (apply channel_or_num; [apply channel_of_Z, Hr | exact H0]).
  repeat split; [exact HR | |]; apply channel_or_num; auto using channel_of_Z.
Qed.

(** For colors built from integers in [0, 255], [a.mix(b, 0)] is [a] and
    [a.mix(b, 1)] is [b]. *)
Lemma mix_ends (ra ga ba rb gb bb : Z) (a b : Color) :
  (0 <= ra <= 255)%Z -> (0 <= ga <= 255)%Z -> (0 <= ba <= 255)%Z ->
  (0 <= rb <= 255)%Z -> (0 <= gb <= 255)%Z -> (0 <= bb <= 255)%Z ->
  new_Color (Some (of_Z ra)) (Some (of_Z ga)) (Some (of_Z ba)) = Ok a ->
  new_Color (Some (of_Z rb)) (Some (of_Z gb)) (Some (of_Z bb)) = Ok b ->
  mix a b (Num 0) = Ok a /\ mix a b (Num 1) = Ok b.
Proof.
  intros Hra Hga Hba Hrb Hgb Hbb Ha Hb.
  destruct (new_Color_channels _ _ _ _ Hra Hga Hba Ha) as (Ar & Ag & Ab).
  destruct (new_Color_channels _ _ _ _ Hrb Hgb Hbb Hb) as (Br & Bg & Bb).
  destruct (average_ends_spec _ _ Ar Br) as [R0 R1].
  destruct (average_ends_spec _ _ Ag Bg) as [G0 G1].
  destruct (average_ends_spec _ _ Ab Bb) as [B0 B1].
  split; unfold mix.
  - change (negb (strict_eq 0 0)) with false. cbv iota. cbn [ToNumber].
    rewrite R0, G0, B0. apply (new_Color_idem _ _ _ _ Ha).
  - change (negb (strict_eq 1 0)) with true. cbv iota. cbn [ToNumber].
    change (or_num 1 0.5) with 1.
    rewrite R1, G1, B1. apply (new_Color_idem _ _ _ _ Hb).
Qed.

(** Where the weight [w] is recovered exactly from [1 - w], and neither is
    zero, the two mixes agree. *)
Lemma mix_symmetric (a b : Color) (w : number) :
  is_nan w = false -> strict_eq w 0 = false -> strict_eq (1 - w) 0 = false ->
  1 - (1 - w) = w ->
  mix a b (Num w) = mix b a (Num (1 - w)).
Proof.
  intros Hn Hw Hw' Hrec.
  assert (Hn' : is_nan (1 - w) = false).
  { destruct (is_nan (1 - w)) eqn:E; [| reflexivity].
    unfold is_nan in E. apply negb_true_iff in E.
    assert (E' : 1 - w = nan).
    { apply Prim2SF_inj. apply is_nan_false_iff in Hn.
      pose proof (FloatAxioms.eqb_spec (1 - w) (1 - w)) as S. rewrite E in S.
      unfold SFeqb in S. destruct (Prim2SF (1 - w)) eqn:P; try reflexivity;
        rewrite SFcompare_refl in S by discriminate; discriminate. }
    rewrite E' in Hrec. rewrite <- Hrec in Hn. vm_compute in Hn. discriminate. }
  unfold mix. rewrite Hw, Hw'. cbn [negb ToNumber].
  unfold or_num. rewrite (truthy_intro w Hn Hw), (truthy_intro (1 - w) Hn' Hw').
  unfold average. rewrite Hrec.
  rewrite (add_comm (red a * (1 - w))), (add_comm (green a * (1 - w))),
    (add_comm (blue a * (1 - w))).
  reflexivity.
Qed.

Example mix_symmetric_quarter :
  forall a b, mix a b (Num 0.25) = mix b a (Num (1 - 0.25)).
Proof. intros a b. apply mix_symmetric; reflexivity. Qed.

(** C9 (code defect).  With a = black, b = (1, 1, 1) and
    w = 0.49999999999999994 (the number just below one half), [1 - w] rounds
    to 0.5: [a.mix(b, w)] rounds 0.4999... down to 0 and is black, while
    [b.mix(a, 1 - w)] rounds 0.5 up to 1 and is (1, 1, 1). *)
Theorem C9_mix_not_symmetric :
  let w := 0x1.fffffffffffffp-2 in
  exists a b m1 m2,
    new_Color None None None = Ok a /\ new_Color (Some 1) None None = Ok b /\
    (0 <=? w) = true /\ (w <=? 1) = true /\ 1 - w = 0.5 /\
    mix a b (Num w) = Ok m1 /\ rgb m1 = [0; 0; 0] /\
    mix b a (Num (1 - w)) = Ok m2 /\ rgb m2 = [1; 1; 1].
Proof.
  do 4 eexists.
  split; [evaluate |]. split; [evaluate |].
  do 3 (split; [evaluate |]).
  split; [evaluate |]. split; [reflexivity |].
  split; [evaluate | reflexivity].
Qed.

(** ** fromHex *)

(** The characters of [s.slice(a, a + 2)] are those of [s] at [a] and
    [a + 1]. *)
Lemma get_slice_pair (s : string) (a : nat) :
  get 0 (slice s (Z.of_nat a) (Z.of_nat a + 2)) = get a s /\
  get 1 (slice s (Z.of_nat a) (Z.of_nat a + 2)) = get (S a) s.
Proof.
  unfold slice, rel_index.
  replace (Z.of_nat a <? 0)%Z with false by (symmetry; apply Z.ltb_ge; lia).
  replace (Z.of_nat a + 2 <? 0)%Z with false by (symmetry; apply Z.ltb_ge; lia).
  set (len := String.length s).
  destruct (Z.min (Z.of_nat a) _ <? Z.min (Z.of_nat a + 2) _)%Z eqn:E.
  - apply Z.ltb_lt in E.
    replace (Z.to_nat (Z.min (Z.of_nat a) (Z.of_nat len))) with a by lia.
    destruct (Nat.eq_dec len (S a)) as [L | L].
    + replace (Z.to_nat _) with 1%nat by lia. split.
      * rewrite substring_correct1 by lia. reflexivity.
      * rewrite substring_correct2 by lia. symmetry. apply get_beyond. lia.
    + replace (Z.to_nat _) with 2%nat by lia. split.
      * rewrite substring_correct1 by lia. reflexivity.
      * rewrite substring_correct1 by lia. reflexivity.
  - apply Z.ltb_ge in E. simpl.
    rewrite !get_beyond by (fold len; lia). auto.
Qed.

Lemma fold_left_pair {A B C : Type} (f : A -> C -> A) (g : B -> C -> B) (l : list C) :
  forall a b,
    fold_left (fun (st : A * B) i => let '(x, y) := st in (f x i, g y i)) l (a, b)
    = (fold_left f l a, fold_left g l b).
Proof.
  induction l as [| i l IH]; intros a b; simpl; [reflexivity | apply IH].
Qed.

Lemma toDec_split (x : string) :
  toDec x = of_Z (tens_of (slice x 0 1) + ones_of (slice x 1 2)).
Proof.
  unfold toDec, tens_of, ones_of. cbv zeta.
  pose proof (fold_left_pair
    (fun tens i =>
       if String.eqb (charAt hex_digits (Some i)) (slice x 0 1) then (i * 16)%Z else tens)
    (fun ones i =>
       if String.eqb (charAt hex_digits (Some i)) (slice x 1 2) then i else ones)
    (map Z.of_nat (seq 0 16)) 0%Z 0%Z) as H.
  cbv beta in H. rewrite H. reflexivity.
Qed.

Lemma tens_of_char (c : option ascii) :
  tens_of (char_string c) = (16 * hex_value c)%Z.
Proof.
  destruct c as [[[] [] [] [] [] [] [] []] |]; vm_compute; reflexivity.
Qed.

Lemma ones_of_char (c : option ascii) :
  ones_of (char_string c) = hex_value c.
Proof.
  destruct c as [[[] [] [] [] [] [] [] []] |]; vm_compute; reflexivity.
Qed.

(** [toDec(x)] is 16 times the digit value of the first character of [x]
    plus the digit value of the second. *)
Lemma toDec_value (x : string) :
  toDec x = of_Z (16 * hex_value (get 0 x) + hex_value (get 1 x)).
Proof.
  rewrite toDec_split.
  change (slice x 0 1) with (slice x (Z.of_nat 0) (Z.of_nat 0 + 1)).
  change (slice x 1 2) with (slice x (Z.of_nat 1) (Z.of_nat 1 + 1)).
  rewrite !slice_charAt, !charAt_get, tens_of_char, ones_of_char.
  reflexivity.
Qed.

Lemma fromHex_value (s : string) :
  fromHex s =
  new_Color (Some (of_Z (16 * hex_value (get 1 s) + hex_value (get 2 s))))
            (Some (of_Z (16 * hex_value (get 3 s) + hex_value (get 4 s))))
            (Some (of_Z (16 * hex_value (get 5 s) + hex_value (get 6 s)))).
Proof.
  unfold fromHex. rewrite !toDec_value.
  destruct (get_slice_pair s 1) as [E1 E2].
  destruct (get_slice_pair s 3) as [E3 E4].
  destruct (get_slice_pair s 5) as [E5 E6].
  change (Z.of_nat 1) with 1%Z in *. change (Z.of_nat 3) with 3%Z in *.
  change (Z.of_nat 5) with 5%Z in *.
  change (1 + 2)%Z with 3%Z in *. change (3 + 2)%Z with 5%Z in *.
  change (5 + 2)%Z with 7%Z in *.
  rewrite E1, E2, E3, E4, E5, E6. reflexivity.
Qed.

Lemma no_hex_digit_values (s : string) :
  no_hex_digit s = true ->
  hex_value (get 1 s) = 0%Z /\ hex_value (get 2 s) = 0%Z /\
  hex_value (get 3 s) = 0%Z /\ hex_value (get 4 s) = 0%Z /\
  hex_value (get 5 s) = 0%Z /\ hex_value (get 6 s) = 0%Z.
Proof.
  unfold no_hex_digit. simpl forallb.
  rewrite !andb_true_iff, !Z.eqb_eq. tauto.
Qed.

(** C10 (amended).  [fromHex] returns a color for every string; each channel
    is built from 16 times the digit value of its first character plus the
    digit value of its second, where a character that is missing or is not a
    lowercase hexadecimal digit counts 0; a string none of whose six channel
    characters is a non-zero lowercase digit gives black. *)
Theorem C10_fromHex_total (s : string) :
  (exists c, fromHex s = Ok c) /\
  fromHex s =
    new_Color (Some (of_Z (16 * hex_value (get 1 s) + hex_value (get 2 s))))
              (Some (of_Z (16 * hex_value (get 3 s) + hex_value (get 4 s))))
              (Some (of_Z (16 * hex_value (get 5 s) + hex_value (get 6 s)))) /\
  (no_hex_digit s = true -> fromHex s = new_Color None None None).
Proof.
  split; [| split].
  - unfold fromHex. apply new_Color_total.
  - apply fromHex_value.
  - intros H. rewrite fromHex_value.
    destruct (no_hex_digit_values s H) as (-> & -> & -> & -> & -> & ->).
    vm_compute. reflexivity.
Qed.

(** Uppercase digits, the empty string and a lone [#] give black. *)
Lemma C10_fromHex_black_witness :
  fromHex "#FF0000" = new_Color None None None /\
  fromHex "" = new_Color None None None /\
  fromHex "#" = new_Color None None None.
Proof.
  split; [| split].
  - apply (C10_fromHex_total "#FF0000"). reflexivity.
  - apply (C10_fromHex_total ""). reflexivity.
  - apply (C10_fromHex_total "#"). reflexivity.
Defined.

(** C10 (as stated, refuted).  ["#abc"] is too short, yet [fromHex] does not
    return black for it: its red channel is 0xab = 171 and its green channel
    0xc0 = 192. *)
Lemma C10_short_string_not_black :
  (String.length "#abc" < 7)%nat /\
  fromHex "#abc" <> new_Color None None None /\
  exists c, fromHex "#abc" = Ok c /\ red c = 171 /\ green c = 192.
Proof.
  split; [simpl; lia |]. split.
  - intros H.
    apply (f_equal (fun r => match r with
                             | Ok c => red c =? 171
                             | Throw _ => false
                             end)) in H.
    vm_compute in H. discriminate.
  - eexists. split; [evaluate | split; reflexivity].
Qed.

(** * Further results *)

(** ** Order of binary64 numbers *)

Ltac order_cases :=
  repeat match goal with
         | H : context [Z.compare ?a ?b] |- _ => destruct (Z.compare_spec a b)
         | |- context [Z.compare ?a ?b] => destruct (Z.compare_spec a b)
         | H : context [Pos.compare ?a ?b] |- _ => destruct (Pos.compare_spec a b)
         | |- context [Pos.compare ?a ?b] => destruct (Pos.compare_spec a b)
         end.

Lemma SFcompare_some (x y : spec_float) :
  x <> S754_nan -> y <> S754_nan -> exists c, SFcompare x y = Some c.
Proof.
  destruct x as [sx | sx | | sx mx ex], y as [sy | sy | | sy my ey];
    intros Hx Hy; try congruence; simpl; eauto.
Qed.

Lemma SFcompare_antisym (x y : spec_float) :
  SFcompare y x = option_map CompOpp (SFcompare x y).
Proof.
  destruct x as [[] | [] | | [] mx ex], y as [[] | [] | | [] my ey];
    try reflexivity; simpl; change (Pos.compare_cont Eq) with Pos.compare;
    order_cases; subst; simpl; try reflexivity; try lia.
Qed.

Lemma SFleb_trans (x y z : spec_float) :
  SFleb x y = true -> SFleb y z = true -> SFleb x z = true.
Proof.
  unfold SFleb.
  destruct x as [[] | [] | | [] mx ex], y as [[] | [] | | [] my ey],
    z as [[] | [] | | [] mz ez]; simpl; try discriminate; try reflexivity;
    change (Pos.compare_cont Eq) with Pos.compare;
    intros H1 H2; order_cases; subst; simpl in *;
    try discriminate; try reflexivity; try lia.
Qed.

Lemma SFltb_leb_trans (x y z : spec_float) :
  SFltb x y = true -> SFleb y z = true -> SFltb x z = true.
Proof.
  unfold SFleb, SFltb.
  destruct x as [[] | [] | | [] mx ex], y as [[] | [] | | [] my ey],
    z as [[] | [] | | [] mz ez]; simpl; try discriminate; try reflexivity;
    change (Pos.compare_cont Eq) with Pos.compare;
    intros H1 H2; order_cases; subst; simpl in *;
    try discriminate; try reflexivity; try lia.
Qed.

Lemma SFleb_ltb_trans (x y z : spec_float) :
  SFleb x y = true -> SFltb y z = true -> SFltb x z = true.
Proof.
  unfold SFleb, SFltb.
  destruct x as [[] | [] | | [] mx ex], y as [[] | [] | | [] my ey],
    z as [[] | [] | | [] mz ez]; simpl; try discriminate; try reflexivity;
    change (Pos.compare_cont Eq) with Pos.compare;
    intros H1 H2; order_cases; subst; simpl in *;
    try discriminate; try reflexivity; try lia.
Qed.

Lemma num_leb_total (a b : number) :
  is_nan a = false -> is_nan b = false -> (a <? b) = false -> (b <=? a) = true.
Proof.
  intros Ha Hb. rewrite ltb_spec, leb_spec. unfold SFltb, SFleb.
  apply is_nan_false_iff in Ha. apply is_nan_false_iff in Hb.
  rewrite (SFcompare_antisym (Prim2SF a) (Prim2SF b)).
  destruct (SFcompare_some _ _ Ha Hb) as [[] ->]; simpl; congruence.
Qed.

Lemma num_leb_not_nan (a b : number) :
  (a <=? b) = true -> is_nan a = false /\ is_nan b = false.
Proof.
  rewrite leb_spec, !is_nan_false_iff. unfold SFleb.
  destruct (Prim2SF a), (Prim2SF b); simpl; try discriminate; split; discriminate.
Qed.

Lemma num_ltb_not_nan (a b : number) :
  (a <? b) = true -> is_nan a = false /\ is_nan b = false.
Proof.
  rewrite ltb_spec, !is_nan_false_iff. unfold SFltb.
  destruct (Prim2SF a), (Prim2SF b); simpl; try discriminate; split; discriminate.
Qed.

Lemma num_leb_trans (a b c : number) :
  (a <=? b) = true -> (b <=? c) = true -> (a <=? c) = true.
Proof. rewrite !leb_spec. apply SFleb_trans. Qed.

Lemma num_ltb_leb_trans (a b c : number) :
  (a <? b) = true -> (b <=? c) = true -> (a <? c) = true.
Proof. rewrite !ltb_spec, leb_spec. apply SFltb_leb_trans. Qed.

Lemma num_leb_ltb_trans (a b c : number) :
  (a <=? b) = true -> (b <? c) = true -> (a <? c) = true.
Proof. rewrite !ltb_spec, leb_spec. apply SFleb_ltb_trans. Qed.

(** ** fromHSV, fromHSL and the methods built on them *)

(** The six sextant tests succeed exactly for a hue in [0, 360). *)
Lemma sextant_chain {T : Type} (h : number) (a b c d e f : T) :
  (if (0 <=? h) && (h <? 60) then Some a
   else if (60 <=? h) && (h <? 120) then Some b
   else if (120 <=? h) && (h <? 180) then Some c
   else if (180 <=? h) && (h <? 240) then Some d
   else if (240 <=? h) && (h <? 300) then Some e
   else if (300 <=? h) && (h <? 360) then Some f
   else None) <> None
  <-> (0 <=? h) = true /\ (h <? 360) = true.
Proof.
  split.
  - intros H.
    destruct ((0 <=? h) && (h <? 60)) eqn:E1;
      [| destruct ((60 <=? h) && (h <? 120)) eqn:E2;
         [| destruct ((120 <=? h) && (h <? 180)) eqn:E3;
            [| destruct ((180 <=? h) && (h <? 240)) eqn:E4;
               [| destruct ((240 <=? h) && (h <? 300)) eqn:E5;
                  [| destruct ((300 <=? h) && (h <? 360)) eqn:E6;
                     [| congruence]]]]]];
      match goal with
      | E : (?k1 <=? h) && (h <? ?k2) = true |- _ =>
          apply andb_true_iff in E; destruct E as [L U]; split;
          [apply (num_leb_trans 0 k1 h eq_refl L)
          | apply (num_ltb_leb_trans h k2 360 U eq_refl)]
      end.
  - intros [L U].
    destruct (num_leb_not_nan _ _ L) as [_ Hn].
    rewrite L. simpl andb.
    destruct (h <? 60) eqn:U1; [discriminate |].
    rewrite (num_leb_total h 60 Hn eq_refl U1). simpl andb.
    destruct (h <? 120) eqn:U2; [discriminate |].
    rewrite (num_leb_total h 120 Hn eq_refl U2). simpl andb.
    destruct (h <? 180) eqn:U3; [discriminate |].
    rewrite (num_leb_total h 180 Hn eq_refl U3). simpl andb.
    destruct (h <? 240) eqn:U4; [discriminate |].
    rewrite (num_leb_total h 240 Hn eq_refl U4). simpl andb.
    destruct (h <? 300) eqn:U5; [discriminate |].
    rewrite (num_leb_total h 300 Hn eq_refl U5). simpl andb.
    rewrite U. discriminate.
Qed.

Ltac use_sextant_chain h :=
  match goal with
  | |- context [if _ then Some ?a else if _ then Some ?b else if _ then Some ?c
                else if _ then Some ?d else if _ then Some ?e
                else if _ then Some ?f else None] =>
      rewrite <- (sextant_chain h a b c d e f);
      destruct (if (0 <=? h) && (h <? 60) then Some a
                else if (60 <=? h) && (h <? 120) then Some b
                else if (120 <=? h) && (h <? 180) then Some c
                else if (180 <=? h) && (h <? 240) then Some d
                else if (240 <=? h) && (h <? 300) then Some e
                else if (300 <=? h) && (h <? 360) then Some f
                else None) as [? |];
      [split; [discriminate | intros _; apply new_Color_total]
      | split; [intros [? H]; discriminate | congruence]]
  end.

Lemma fromHSV_returns_iff (hue s v : prim) :
  (exists c, fromHSV hue s v = Ok c) <->
  (0 <=? ToNumber hue) = true /\ (ToNumber hue <? 360) = true.
Proof. unfold fromHSV. cbv zeta. use_sextant_chain (ToNumber hue). Qed.

Lemma fromHSL_returns_iff (hue s l : prim) :
  (exists c, fromHSL hue s l = Ok c) <->
  (0 <=? ToNumber hue) = true /\ (ToNumber hue <? 360) = true.
Proof. unfold fromHSL. cbv zeta. use_sextant_chain (ToNumber hue). Qed.

Lemma not_Ok_Throw {A : Type} (r : result A) :
  ~ (exists a, r = Ok a) <-> r = Throw TypeError.
Proof.
  destruct r as [a | []]; split; intros H; try reflexivity; try discriminate.
  - exfalso. apply H. eauto.
  - intros [a E]. discriminate.
Qed.

Lemma fromHSV_cases (hue s v : prim) :
  if hue_in_range (ToNumber hue)
  then exists c, fromHSV hue s v = Ok c
  else fromHSV hue s v = Throw TypeError.
Proof.
  unfold hue_in_range.
  destruct ((0 <=? ToNumber hue) && (ToNumber hue <? 360)) eqn:E.
  - apply andb_true_iff in E. apply fromHSV_returns_iff, E.
  - apply not_Ok_Throw. intros H. apply fromHSV_returns_iff in H.
    destruct H as [H1 H2]. rewrite H1, H2 in E. discriminate.
Qed.

Lemma fromHSL_cases (hue s l : prim) :
  if hue_in_range (ToNumber hue)
  then exists c, fromHSL hue s l = Ok c
  else fromHSL hue s l = Throw TypeError.
Proof.
  unfold hue_in_range.
  destruct ((0 <=? ToNumber hue) && (ToNumber hue <? 360)) eqn:E.
  - apply andb_true_iff in E. apply fromHSL_returns_iff, E.
  - apply not_Ok_Throw. intros H. apply fromHSL_returns_iff in H.
    destruct H as [H1 H2]. rewrite H1, H2 in E. discriminate.
Qed.

(** [fromHSV] and [fromHSL] return a color when the hue converts to a number
    in [0, 360), and throw a TypeError for every other hue (negative, 360 or
    more, NaN, [undefined], a string that is no number), whatever the other
    two arguments are. *)
Theorem conversions_return_iff_hue_in_range (hue s v : prim) :
  (if hue_in_range (ToNumber hue)
   then exists c, fromHSV hue s v = Ok c
   else fromHSV hue s v = Throw TypeError) /\
  (if hue_in_range (ToNumber hue)
   then exists c, fromHSL hue s v = Ok c
   else fromHSL hue s v = Throw TypeError).
Proof. split; [apply fromHSV_cases | apply fromHSL_cases]. Qed.

(** [saturate], [desaturate], [brighten] and [darken] hand the hue of the
    receiver unchanged to [fromHSL], and [rotate] hands the remainder
    [(hsvHue + a) % 360] to [fromHSV]: each returns a color when that hue is
    in [0, 360) and throws a TypeError otherwise, for every amount. *)
Theorem hsl_methods_return_iff_hue_in_range (c : Color) (p : number) (relative : bool) :
  let ok (r : result Color) (h : number) :=
    if hue_in_range h then exists c', r = Ok c' else r = Throw TypeError in
  ok (saturate c p relative) (hslHue c) /\
  ok (desaturate c p relative) (hslHue c) /\
  ok (brighten c p relative) (hslHue c) /\
  ok (darken c p relative) (hslHue c) /\
  ok (rotate c p) (rem (hsvHue c + p) 360).
Proof.
  cbv zeta. unfold desaturate, darken, saturate, brighten, rotate.
  repeat split;
    match goal with
    | |- if hue_in_range ?h then (exists c', fromHSL _ ?s ?l = _) else _ =>
        exact (fromHSL_cases (Num h) s l)
    | |- if hue_in_range ?h then (exists c', fromHSV _ ?s ?l = _) else _ =>
        exact (fromHSV_cases (Num h) s l)
    end.
Qed.

(** ** Colors built from integers in [0, 255] *)

Lemma chan_all : forallb chan_ok channels = true.
Proof. vm_compute. reflexivity. Qed.

Lemma pair_all : forallb (fun x => forallb (pair_ok x) channels) channels = true.
Proof. vm_compute. reflexivity. Qed.

Lemma chan_facts (x : number) : In x channels -> chan_ok x = true.
Proof. intros H. pose proof chan_all as A. rewrite forallb_forall in A. auto. Qed.

Lemma pair_facts (x y : number) :
  In x channels -> In y channels -> pair_ok x y = true.
Proof.
  intros Hx Hy. pose proof pair_all as A.
  rewrite forallb_forall in A. specialize (A x Hx).
  rewrite forallb_forall in A. auto.
Qed.

Lemma leibniz_eq (x y : number) : PrimFloat.Leibniz.eqb x y = true <-> x = y.
Proof. apply FloatAxioms.Leibniz.eqb_spec. Qed.

Lemma eqb_bool_eq (a b : bool) : Bool.eqb a b = true -> a = b.
Proof. apply Bool.eqb_prop. Qed.

(** What the enumeration shows on one channel value. *)
Lemma channel_facts (x : number) :
  In x channels ->
  (0 <=? x) = true /\ (x <=? 255) = true /\ is_nan x = false /\
  max2 x x = x /\ min2 x x = x /\
  is_zero (x / 255) = PrimFloat.Leibniz.eqb x 0 /\
  (x / 255 <? 1) = (x <? 255) /\
  truthy x = negb (PrimFloat.Leibniz.eqb x 0) /\
  In (255 - x) channels /\ 255 - (255 - x) = x /\
  PrimFloat.Leibniz.eqb (255 - x) 0 = PrimFloat.Leibniz.eqb x 255.
Proof.
  intros H. pose proof (chan_facts x H) as F. unfold chan_ok in F.
  rewrite !andb_true_iff in F.
  destruct F as ((((((((((F1 & F2) & F3) & F4) & F5) & F6) & F7) & F8) & F9) & F10) & F11).
  apply negb_true_iff in F3. apply leibniz_eq in F4, F5, F10.
  apply eqb_bool_eq in F6, F7, F8, F11.
  apply existsb_exists in F9. destruct F9 as (z & Hz & Ez). apply leibniz_eq in Ez.
  rewrite <- Ez in Hz. repeat split; assumption.
Qed.

(** What the enumeration shows on two channel values. *)
Lemma channel_pair_order (x y : number) :
  In x channels -> In y channels ->
  ((y <=? x) = true -> (x <=? y) = true -> x = y) /\
  (min2 x y <=? x) = true /\ (min2 x y <=? y) = true /\
  (x <=? max2 x y) = true /\ (y <=? max2 x y) = true.
Proof.
  intros Hx Hy. pose proof (pair_facts x y Hx Hy) as F. unfold pair_ok in F.
  cbv zeta in F. rewrite !andb_true_iff in F.
  destruct F as (((((F1 & F2) & F3) & F4) & F5) & _).
  repeat split; try assumption.
  intros L1 L2. rewrite L1, L2 in F1. apply leibniz_eq, F1.
Qed.

(** What the enumeration shows on the values derived from a largest
    component [x] and a smallest component [y]. *)
Lemma channel_pair_derived (x y : number) :
  In x channels -> In y channels -> (y <=? x) = true ->
  (0 <=? x / 255) = true /\ (x / 255 <=? 1) = true /\
  (0 <=? 0.5 * (x / 255 + y / 255)) = true /\
  (0.5 * (x / 255 + y / 255) <=? 1) = true /\
  (0 <=? hsl_sat_of x y) = true /\
  (hsl_sat_of x y <=? 0x1.0000000000020p+0) = true /\
  ((x <? 255) = true -> (hsl_sat_of x y <=? 1) = true) /\
  strict_eq (hsl_sat_of x y) 0 = PrimFloat.Leibniz.eqb x y /\
  (is_zero x = true -> is_nan ((x / 255 - y / 255) / (x / 255)) = true) /\
  (is_zero x = false ->
   (0 <=? (x / 255 - y / 255) / (x / 255)) = true /\
   ((x / 255 - y / 255) / (x / 255) <=? 1) = true /\
   strict_eq ((x / 255 - y / 255) / (x / 255)) 0 = PrimFloat.Leibniz.eqb x y).
Proof.
  intros Hx Hy L. pose proof (pair_facts x y Hx Hy) as F. unfold pair_ok in F.
  cbv zeta in F. rewrite L in F. rewrite !andb_true_iff in F.
  destruct F as (_ & (((((((F1 & F2) & F3) & F4) & F5) & F6) & F7) & F8) & F9).
  apply eqb_bool_eq in F8.
  repeat split; try assumption.
  - intros U. rewrite U in F7. exact F7.
  - intros Z. rewrite Z in F9. exact F9.
  - match goal with
         | Z : is_zero x = false |- _ =>
             rewrite Z in F9; rewrite !andb_true_iff in F9;
             destruct F9 as ((G1 & G2) & G3); apply eqb_bool_eq in G3; assumption
         end.
  - match goal with
    | Z : is_zero x = false |- _ =>
        rewrite Z in F9; rewrite !andb_true_iff in F9; apply F9
    end.
  - match goal with
    | Z : is_zero x = false |- _ =>
        rewrite Z in F9; rewrite !andb_true_iff in F9;
        destruct F9 as (_ & G3); apply eqb_bool_eq in G3; assumption
    end.
Qed.

Lemma min2_cases (a b : number) :
  is_nan a = false -> is_nan b = false -> min2 a b = a \/ min2 a b = b.
Proof.
  intros Ha Hb. unfold min2. rewrite Ha, Hb. simpl.
  destruct (a <? b), (b <? a), (get_sign a); auto.
Qed.

Lemma channel_not_nan (x : number) : In x channels -> is_nan x = false.
Proof. intros H. apply (channel_facts x H). Qed.

Lemma channel_max2 (x y : number) :
  In x channels -> In y channels ->
  In (max2 x y) channels /\ (x <=? max2 x y) = true /\ (y <=? max2 x y) = true.
Proof.
  intros Hx Hy. destruct (channel_pair_order x y Hx Hy) as (_ & _ & _ & F4 & F5).
  repeat split; try assumption.
  destruct (max2_cases x y (channel_not_nan x Hx) (channel_not_nan y Hy)) as [E | E];
    rewrite E; assumption.
Qed.

Lemma channel_min2 (x y : number) :
  In x channels -> In y channels ->
  In (min2 x y) channels /\ (min2 x y <=? x) = true /\ (min2 x y <=? y) = true.
Proof.
  intros Hx Hy. destruct (channel_pair_order x y Hx Hy) as (_ & F2 & F3 & _).
  repeat split; try assumption.
  destruct (min2_cases x y (channel_not_nan x Hx) (channel_not_nan y Hy)) as [E | E];
    rewrite E; assumption.
Qed.

Lemma channel_antisym (x y : number) :
  In x channels -> In y channels ->
  (y <=? x) = true -> (x <=? y) = true -> x = y.
Proof. intros Hx Hy. apply (channel_pair_order x y Hx Hy). Qed.

(** The largest and the smallest of three channel values. *)
Lemma channel_extremes (R G B : number) :
  In R channels -> In G channels -> In B channels ->
  let x := Math_max R G B in
  let y := Math_min R G B in
  In x channels /\ In y channels /\ (y <=? x) = true /\
  (y <=? R) = true /\ (y <=? G) = true /\ (y <=? B) = true /\
  (R <=? x) = true /\ (G <=? x) = true /\ (B <=? x) = true.
Proof.
  intros HR HG HB. cbv zeta. unfold Math_max, Math_min.
  destruct (channel_max2 R G HR HG) as (M1 & M2 & M3).
  destruct (channel_max2 _ B M1 HB) as (M4 & M5 & M6).
  destruct (channel_min2 R G HR HG) as (N1 & N2 & N3).
  destruct (channel_min2 _ B N1 HB) as (N4 & N5 & N6).
  assert (YR : (min2 (min2 R G) B <=? R) = true) by exact (num_leb_trans _ _ _ N5 N2).
  assert (RX : (R <=? max2 (max2 R G) B) = true) by exact (num_leb_trans _ _ _ M2 M5).
  repeat split; try assumption.
  - exact (num_leb_trans _ _ _ YR RX).
  - exact (num_leb_trans _ _ _ N5 N3).
  - exact (num_leb_trans _ _ _ M3 M5).
Qed.

Lemma channel_extremes_equal (R G B : number) :
  In R channels -> In G channels -> In B channels ->
  Math_max R G B = Math_min R G B <-> R = G /\ G = B.
Proof.
  intros HR HG HB.
  destruct (channel_extremes R G B HR HG HB) as (X & Y & YX & YR & YG & YB & RX & GX & BX).
  split.
  - intros E. rewrite E in RX, GX, BX.
    pose proof (channel_antisym _ _ Y HR RX YR) as ER.
    pose proof (channel_antisym _ _ Y HG GX YG) as EG.
    pose proof (channel_antisym _ _ Y HB BX YB) as EB.
    split; congruence.
  - intros [<- <-]. unfold Math_max, Math_min.
    destruct (channel_facts R HR) as (_ & _ & _ & Emax & Emin & _).
    rewrite !Emax, !Emin. reflexivity.
Qed.

(** The derived fields in terms of the stored components. *)
Lemma new_Color_derived (red grn blu : option number) (c : Color) :
  new_Color red grn blu = Ok c ->
  let x := Math_max (_RED c) (_GREEN c) (_BLUE c) in
  let y := Math_min (_RED c) (_GREEN c) (_BLUE c) in
  _HSV_VAL c = x / 255 /\
  _HSV_SAT c = (x / 255 - y / 255) / (x / 255) /\
  _HSL_HUE c = _HSV_HUE c /\
  _HSL_LUM c = 0.5 * (x / 255 + y / 255) /\
  _HSL_SAT c = hsl_sat_of x y /\
  (strict_eq (x / 255 - y / 255) 0 = true -> _HSV_HUE c = 0).
Proof.
  unfold new_Color, hsl_sat_of.
  destruct (strict_eq _ 0) eqn:E.
  - intros H. injection H as <-.
    cbn [_RED _GREEN _BLUE _HSV_HUE _HSV_VAL _HSV_SAT _HSL_HUE _HSL_LUM _HSL_SAT].
    rewrite E. repeat split; reflexivity.
  - destruct (indexOf _ _) as [| [p | p |] |]; try discriminate;
      try destruct p; try discriminate; intros H; injection H as <-;
      cbn [_RED _GREEN _BLUE _HSV_HUE _HSV_VAL _HSV_SAT _HSL_HUE _HSL_LUM _HSL_SAT];
      rewrite E; repeat split; try reflexivity; discriminate.
Qed.

Lemma eight_bit_channels (c : Color) :
  eight_bit c ->
  In (red c) channels /\ In (green c) channels /\ In (blue c) channels /\
  new_Color (Some (red c)) (Some (green c)) (Some (blue c)) = Ok c.
Proof.
  intros (r & g & b & Hr & Hg & Hb & H).
  destruct (new_Color_channels r g b c Hr Hg Hb H) as (A & B & C).
  repeat split; try assumption. apply (new_Color_idem _ _ _ _ H).
Qed.

Lemma channel_zero (x : number) : In x channels -> is_zero x = true -> x = 0.
Proof.
  intros H Z. destruct (channel_facts x H) as (L0 & _).
  assert (H0 : In 0 channels) by (apply (channel_of_Z 0); lia).
  apply (channel_antisym x 0 H H0 L0).
  unfold is_zero, PrimFloat.zero in Z.
  rewrite leb_spec. rewrite FloatAxioms.eqb_spec in Z.
  unfold SFleb. unfold SFeqb in Z.
  destruct (SFcompare (Prim2SF x) (Prim2SF 0)) as [[] |]; congruence.
Qed.

Lemma eight_bit_not_black (c : Color) :
  eight_bit c -> rgb c <> [0; 0; 0] ->
  is_zero (Math_max (red c) (green c) (blue c)) = false.
Proof.
  intros E8 NB. destruct (eight_bit_channels c E8) as (HR & HG & HB & _).
  destruct (channel_extremes _ _ _ HR HG HB) as (X & _ & _ & _ & _ & _ & RX & GX & BX).
  destruct (is_zero _) eqn:Z; [| reflexivity]. exfalso.
  apply (channel_zero _ X) in Z. rewrite Z in RX, GX, BX.
  destruct (channel_facts _ HR) as (R0 & _).
  destruct (channel_facts _ HG) as (G0 & _).
  destruct (channel_facts _ HB) as (B0 & _).
  assert (H0 : In 0 channels) by (apply (channel_of_Z 0); lia).
  apply NB. unfold rgb.
  rewrite (channel_antisym _ _ HR H0 R0 RX).
  rewrite (channel_antisym _ _ HG H0 G0 GX).
  rewrite (channel_antisym _ _ HB H0 B0 BX). reflexivity.
Qed.

(** [hsvVal], [hslLum] and [hslSat] of a color built from integers in
    [0, 255]: [hsvVal] and [hslLum] lie in [0, 1]; [hslSat] is at least 0
    and, while the largest component is below 255 ([hsvVal] below 1), at most
    1; with a component 255 rounding can lift it above 1, never above
    1.0000000000000071, which (255, 251, 251) reaches.  [hsvSat] is NaN for
    black and lies in [0, 1] for every other color. *)
Theorem derived_values_bounds :
  (forall c, eight_bit c ->
     ((0 <=? hsvVal c) = true /\ (hsvVal c <=? 1) = true) /\
     ((0 <=? hslLum c) = true /\ (hslLum c <=? 1) = true) /\
     ((0 <=? hslSat c) = true /\ (hslSat c <=? 0x1.0000000000020p+0) = true /\
      ((hsvVal c <? 1) = true -> (hslSat c <=? 1) = true)) /\
     (rgb c = [0; 0; 0] -> is_nan (hsvSat c) = true) /\
     (rgb c <> [0; 0; 0] -> (0 <=? hsvSat c) = true /\ (hsvSat c <=? 1) = true)) /\
  (exists c, new_Color (Some 255) (Some 251) (Some 251) = Ok c /\
     hslSat c = 0x1.0000000000020p+0).
Proof.
  split; [| eexists; split; [vm_compute; reflexivity | reflexivity]].
  intros c E8. destruct (eight_bit_channels c E8) as (HR & HG & HB & Hc).
  destruct (new_Color_derived _ _ _ _ Hc) as (V & S & _ & L & SL & _).
  destruct (channel_extremes _ _ _ HR HG HB) as (X & Y & YX & YR & YG & YB & RX & GX & BX).
  destruct (channel_pair_derived _ _ X Y YX)
    as (D1 & D2 & D3 & D4 & D5 & D6 & D7 & D8 & D9 & D10).
  destruct (channel_facts _ X) as (_ & _ & _ & _ & _ & Z1 & Z2 & _).
  pose proof (eight_bit_not_black c E8) as NZ.
  unfold hsvVal, hslLum, hslSat, hsvSat, rgb, red, green, blue in *.
  rewrite V, S, L, SL. repeat split; try assumption.
  - intros U. apply D7. rewrite <- Z2. exact U.
  - intros B0. injection B0 as E1 E2 E3. apply D9.
    rewrite E1, E2, E3. reflexivity.
  - apply (D10 (NZ ltac:(assumption))).
  - apply (D10 (NZ ltac:(assumption))).
Qed.

(** For a color built from integers in [0, 255], the HSL saturation is 0
    exactly when the three components are equal; for such a color other than
    black, [isGrayscale()] is true exactly when the three components are
    equal. *)
Theorem grayscale_iff_equal_components (c : Color) :
  eight_bit c ->
  (strict_eq (hslSat c) 0 = true <-> red c = green c /\ green c = blue c) /\
  (rgb c <> [0; 0; 0] ->
   (isGrayscale c = true <-> red c = green c /\ green c = blue c)).
Proof.
  intros E8. destruct (eight_bit_channels c E8) as (HR & HG & HB & Hc).
  destruct (new_Color_derived _ _ _ _ Hc) as (V & S & _ & L & SL & _).
  destruct (channel_extremes _ _ _ HR HG HB) as (X & Y & YX & _).
  destruct (channel_pair_derived _ _ X Y YX)
    as (_ & _ & _ & _ & _ & _ & _ & D8 & _ & D10).
  pose proof (channel_extremes_equal _ _ _ HR HG HB) as EQ.
  pose proof (eight_bit_not_black c E8) as NZ.
  unfold red, green, blue in *.
  split.
  - unfold hslSat. rewrite SL, D8, leibniz_eq. exact EQ.
  - intros NB. unfold isGrayscale, hsvSat. rewrite S.
    destruct (D10 (NZ NB)) as (_ & _ & D).
    rewrite D, leibniz_eq. exact EQ.
Qed.

(** ** The constructor, for all arguments *)

Lemma or_num_truthy_or (x d : number) :
  truthy (or_num x d) = true \/ or_num x d = d.
Proof. unfold or_num. destruct (truthy x) eqn:E; auto. Qed.

(** [new Color(red, grn, blu)] returns a color for all arguments.  Its
    components are never NaN, green and blue are non-zero whenever red is,
    [hslHue] is [hsvHue], and building a color again from the three
    components gives the same color, derived values included. *)
Theorem constructor_invariants (r g b : option number) :
  exists c, new_Color r g b = Ok c /\
    is_nan (red c) = false /\ is_nan (green c) = false /\ is_nan (blue c) = false /\
    (truthy (red c) = true -> truthy (green c) = true /\ truthy (blue c) = true) /\
    hslHue c = hsvHue c /\
    new_Color (Some (red c)) (Some (green c)) (Some (blue c)) = Ok c.
Proof.
  destruct (new_Color_total r g b) as [c H]. exists c.
  destruct (new_Color_rgb _ _ _ _ H) as (ER & EG & EB).
  destruct (new_Color_derived _ _ _ _ H) as (_ & _ & EH & _).
  assert (NR : is_nan (or_else r 0) = false) by (apply or_else_not_nan; reflexivity).
  unfold red, green, blue, hslHue, hsvHue. rewrite ER, EG, EB.
  repeat split; try assumption; try (apply or_else_not_nan, NR).
  - destruct g as [n |]; [| assumption]. cbn [or_else].
    destruct (or_num_truthy_or n (or_else r 0)) as [T | ->]; assumption.
  - destruct b as [n |]; [| assumption]. cbn [or_else].
    destruct (or_num_truthy_or n (or_else r 0)) as [T | ->]; assumption.
  - rewrite <- EB, <- EG, <- ER. apply (new_Color_idem _ _ _ _ H).
Qed.

(** An argument that is 0 or NaN is treated as omitted, in each of the three
    positions, and one argument [v] gives the same color as [(v, v, v)]. *)
Theorem constructor_falsy_is_omitted (x v : number) (r g b : option number) :
  (truthy x = false ->
   new_Color (Some x) g b = new_Color None g b /\
   new_Color r (Some x) b = new_Color r None b /\
   new_Color r g (Some x) = new_Color r g None) /\
  new_Color (Some v) None None = new_Color (Some v) (Some v) (Some v).
Proof.
  split.
  - intros F. unfold new_Color. cbn [or_else]. unfold or_num. rewrite F. auto.
  - unfold new_Color. cbn [or_else]. unfold or_num.
    destruct (truthy v) eqn:T; [reflexivity |].
    change (truthy 0) with false. reflexivity.
Qed.

Lemma constructor_falsy_is_omitted_witness :
  truthy 0 = false /\
  new_Color (Some 0) (Some 7) None = new_Color None (Some 7) None.
Proof.
  split; [reflexivity |].
  apply (constructor_falsy_is_omitted 0 0 None (Some 7) None). reflexivity.
Defined.

(** ** equals *)

Lemma SFeqb_eq (x y : spec_float) :
  SFeqb x y = true -> x <> S754_zero true -> y <> S754_zero true -> x = y.
Proof.
  unfold SFeqb.
  destruct x as [[] | [] | | [] mx ex], y as [[] | [] | | [] my ey];
    simpl; try discriminate; try congruence;
    change (Pos.compare_cont Eq) with Pos.compare;
    intros H _ _; order_cases; subst; simpl in *; try discriminate; reflexivity.
Qed.

Lemma or_num_no_neg_zero (x d : number) :
  Prim2SF d <> S754_zero true -> Prim2SF (or_num x d) <> S754_zero true.
Proof.
  intros Hd. unfold or_num. destruct (truthy x) eqn:T; [| exact Hd].
  unfold truthy in T. apply negb_true_iff, orb_false_iff in T. destruct T as [_ Z].
  unfold is_zero, PrimFloat.zero in Z. rewrite FloatAxioms.eqb_spec in Z.
  intros E. rewrite E in Z. discriminate.
Qed.

Lemma or_else_no_neg_zero (x : option number) (d : number) :
  Prim2SF d <> S754_zero true -> Prim2SF (or_else x d) <> S754_zero true.
Proof.
  intros Hd. destruct x as [n |]; [apply or_num_no_neg_zero, Hd | exact Hd].
Qed.

Lemma constructed_components (c : Color) :
  constructed c ->
  (is_nan (red c) = false /\ Prim2SF (red c) <> S754_zero true) /\
  (is_nan (green c) = false /\ Prim2SF (green c) <> S754_zero true) /\
  (is_nan (blue c) = false /\ Prim2SF (blue c) <> S754_zero true) /\
  new_Color (Some (red c)) (Some (green c)) (Some (blue c)) = Ok c.
Proof.
  intros (r & g & b & H).
  destruct (new_Color_rgb _ _ _ _ H) as (ER & EG & EB).
  assert (NR : is_nan (or_else r 0) = false) by (apply or_else_not_nan; reflexivity).
  assert (ZR : Prim2SF (or_else r 0) <> S754_zero true)
    by (apply or_else_no_neg_zero; discriminate).
  unfold red, green, blue. rewrite ER, EG, EB.
  repeat split; try assumption;
    try (apply or_else_not_nan, NR); try (apply or_else_no_neg_zero, ZR).
  rewrite <- EB, <- EG, <- ER. apply (new_Color_idem _ _ _ _ H).
Qed.

Lemma strict_eq_eq (x y : number) :
  Prim2SF x <> S754_zero true -> Prim2SF y <> S754_zero true ->
  strict_eq x y = true -> x = y.
Proof.
  intros Hx Hy E. unfold strict_eq in E. rewrite FloatAxioms.eqb_spec in E.
  apply Prim2SF_inj, SFeqb_eq; assumption.
Qed.

(** For two colors returned by the constructor, [equals] is true exactly
    when they are the same color, derived values included; in particular
    every such color equals itself. *)
Theorem equals_iff_same (a b : Color) :
  constructed a -> constructed b -> (equals a b = true <-> a = b).
Proof.
  intros Ha Hb.
  destruct (constructed_components a Ha) as ((NR & ZR) & (NG & ZG) & (NB & ZB) & Ia).
  destruct (constructed_components b Hb) as ((_ & ZR') & (_ & ZG') & (_ & ZB') & Ib).
  unfold equals. split.
  - rewrite !andb_true_iff. intros [[E1 E2] E3].
    apply strict_eq_eq in E1, E2, E3; try assumption.
    rewrite E1, E2, E3 in Ia. rewrite Ia in Ib. injection Ib as ->. reflexivity.
  - intros <-. rewrite !strict_eq_refl by assumption. reflexivity.
Qed.

Lemma equals_iff_same_witness :
  constructed sample_color /\ constructed sample_color /\
  (equals sample_color sample_color = true <-> sample_color = sample_color).
Proof.
  assert (H : constructed sample_color)
    by (exists (Some 51), (Some 102), (Some 153); reflexivity).
  split; [exact H |]. split; [exact H |].
  apply (equals_iff_same sample_color sample_color H H).
Defined.

(** ** complement *)

Lemma channel_or_num_if (y d : number) :
  In y channels -> or_num y d = if PrimFloat.Leibniz.eqb y 0 then d else y.
Proof.
  intros H. destruct (channel_facts y H) as (_ & _ & _ & _ & _ & _ & _ & T & _).
  unfold or_num. rewrite T. destruct (PrimFloat.Leibniz.eqb y 0); reflexivity.
Qed.

Lemma leibniz_neq (x y : number) : PrimFloat.Leibniz.eqb x y = false <-> x <> y.
Proof.
  rewrite <- leibniz_eq. destruct (PrimFloat.Leibniz.eqb x y); split; congruence.
Qed.

Lemma complement_twice_component (R G : number) :
  In R channels -> In G channels ->
  (truthy R = true -> truthy G = true) ->
  let R1 := or_num (255 - R) 0 in
  let G1 := or_num (255 - G) R1 in
  let R2 := or_num (255 - R1) 0 in
  let G2 := or_num (255 - G1) R2 in
  R1 = 255 - R /\ R2 = R /\ In G1 channels /\
  (G <> 255 -> G1 = 255 - G) /\
  (G2 = G <-> (G = 255 -> R = 255)).
Proof.
  intros HR HG Inv. cbv zeta.
  destruct (channel_facts R HR) as (_ & _ & _ & _ & _ & _ & _ & TR & CR & IR & ZR).
  destruct (channel_facts G HG) as (_ & _ & _ & _ & _ & _ & _ & TG & CG & IG & ZG).
  assert (E1 : or_num (255 - R) 0 = 255 - R).
  { rewrite (channel_or_num_if _ _ CR).
    destruct (PrimFloat.Leibniz.eqb (255 - R) 0) eqn:E; [| reflexivity].
    apply leibniz_eq in E. congruence. }
  rewrite E1.
  assert (E2 : or_num (255 - (255 - R)) 0 = R).
  { rewrite IR. rewrite (channel_or_num_if _ _ HR).
    destruct (PrimFloat.Leibniz.eqb R 0) eqn:E; [| reflexivity].
    apply leibniz_eq in E. congruence. }
  rewrite E2.
  rewrite (channel_or_num_if (255 - G) _ CG), ZG.
  destruct (PrimFloat.Leibniz.eqb G 255) eqn:EG.
  - (* green is 255 *)
    apply leibniz_eq in EG. subst G.
    rewrite (channel_or_num_if (255 - (255 - R)) _
               ltac:(rewrite IR; exact HR)), IR.
    repeat split; try assumption; try congruence.
    + destruct (PrimFloat.Leibniz.eqb R 0) eqn:E0.
      * apply leibniz_eq in E0. subst R. intros E. exfalso.
        apply (f_equal (fun z => PrimFloat.Leibniz.eqb z 255)) in E.
        vm_compute in E. discriminate.
      * intros E _. exact E.
    + intros H. specialize (H eq_refl). subst R. reflexivity.
  - (* green is not 255 *)
    apply leibniz_neq in EG.
    rewrite IG. rewrite (channel_or_num_if G _ HG).
    assert (E : (if PrimFloat.Leibniz.eqb G 0 then R else G) = G).
    { destruct (PrimFloat.Leibniz.eqb G 0) eqn:E0; [| reflexivity].
      apply leibniz_eq in E0. subst G.
      destruct (PrimFloat.Leibniz.eqb R 0) eqn:ER0.
      - apply leibniz_eq in ER0. exact ER0.
      - specialize (Inv TR). vm_compute in Inv. discriminate. }
    rewrite E. repeat split; try assumption; try congruence.
Qed.

Lemma channel_is_of_Z (x : number) :
  In x channels -> exists z, (0 <= z <= 255)%Z /\ x = of_Z z.
Proof.
  unfold channels. intros H. apply in_map_iff in H. destruct H as (n & <- & Hn).
  apply in_seq in Hn. exists (Z.of_nat n). split; [lia | reflexivity].
Qed.

Lemma eight_bit_intro (x y z : number) (c : Color) :
  In x channels -> In y channels -> In z channels ->
  new_Color (Some x) (Some y) (Some z) = Ok c -> eight_bit c.
Proof.
  intros Hx Hy Hz H.
  destruct (channel_is_of_Z x Hx) as (r & Hr & ->).
  destruct (channel_is_of_Z y Hy) as (g & Hg & ->).
  destruct (channel_is_of_Z z Hz) as (b & Hb & ->).
  exists r, g, b. auto.
Qed.

Lemma constructed_nonzero (r g b : option number) (c : Color) :
  new_Color r g b = Ok c ->
  truthy (red c) = true -> truthy (green c) = true /\ truthy (blue c) = true.
Proof.
  intros H. destruct (new_Color_rgb _ _ _ _ H) as (ER & EG & EB).
  unfold red, green, blue. rewrite ER, EG, EB. intros T. split.
  - destruct g as [n |]; [| assumption]. cbn [or_else].
    destruct (or_num_truthy_or n (or_else r 0)) as [T' | ->]; assumption.
  - destruct b as [n |]; [| assumption]. cbn [or_else].
    destruct (or_num_truthy_or n (or_else r 0)) as [T' | ->]; assumption.
Qed.

(** For a color [c] built from integers in [0, 255], [complement()] returns
    such a color again; its red is 255 - red, and its green (blue) is
    255 - green (blue) unless that component of [c] is 255.  Complementing
    twice gives [c] back exactly when neither green nor blue is 255 while red
    is not. *)
Theorem complement_twice (c : Color) :
  eight_bit c ->
  exists c1 c2,
    complement c = Ok c1 /\ complement c1 = Ok c2 /\ eight_bit c1 /\
    red c1 = 255 - red c /\
    (green c <> 255 -> green c1 = 255 - green c) /\
    (blue c <> 255 -> blue c1 = 255 - blue c) /\
    (c2 = c <-> (green c = 255 -> red c = 255) /\ (blue c = 255 -> red c = 255)).
Proof.
  intros E8. destruct (eight_bit_channels c E8) as (HR & HG & HB & Ic).
  pose proof (constructed_nonzero _ _ _ _ Ic) as Inv.
  destruct (complement_twice_component _ _ HR HG (fun T => proj1 (Inv T)))
    as (R1 & R2 & G1c & G1 & G2).
  destruct (complement_twice_component _ _ HR HB (fun T => proj2 (Inv T)))
    as (_ & _ & B1c & B1 & B2).
  destruct (channel_facts _ HR) as (_ & _ & _ & _ & _ & _ & _ & _ & CR & _).
  unfold complement.
  destruct (new_Color_total (Some (255 - red c)) (Some (255 - green c))
              (Some (255 - blue c))) as [c1 H1].
  destruct (new_Color_rgb _ _ _ _ H1) as (ER1 & EG1 & EB1). cbn [or_else] in *.
  fold (red c1) in ER1. fold (green c1) in EG1. fold (blue c1) in EB1.
  destruct (new_Color_total (Some (255 - red c1)) (Some (255 - green c1))
              (Some (255 - blue c1))) as [c2 H2].
  destruct (new_Color_rgb _ _ _ _ H2) as (ER2 & EG2 & EB2). cbn [or_else] in *.
  fold (red c2) in ER2. fold (green c2) in EG2. fold (blue c2) in EB2.
  exists c1, c2. rewrite H1. split; [reflexivity |]. split; [exact H2 |].
  rewrite <- EG1 in G1, G2, G1c. rewrite <- EB1 in B1, B2, B1c.
  rewrite <- ER1 in R1, R2, G2, B2.
  rewrite <- EG2 in G2. rewrite <- EB2 in B2. rewrite <- ER2 in R2.
  assert (R1c : In (red c1) channels) by (rewrite R1; exact CR).
  split; [| split; [exact R1 | split; [exact G1 | split; [exact B1 |]]]].
  - apply (eight_bit_intro (red c1) (green c1) (blue c1)); try assumption.
    apply (new_Color_idem _ _ _ _ H1).
  - split.
    + intros ->. split; [apply G2 | apply B2]; reflexivity.
    + intros [CG CB]. apply G2 in CG. apply B2 in CB.
      pose proof (new_Color_idem _ _ _ _ H2) as I2.
      unfold red, green, blue in *.
      rewrite R2, CG, CB, Ic in I2. injection I2 as ->. reflexivity.
Qed.

(** ** The hexadecimal string *)

Lemma hex_all : forallb hex_ok channels = true.
Proof. vm_compute. reflexivity. Qed.

Lemma toHex_channel (x : number) :
  In x channels ->
  exists a b, toHex x = String a (String b "") /\
    is_hex_digit a = true /\ is_hex_digit b = true /\
    toDec (String a (String b "")) = x.
Proof.
  intros H. pose proof hex_all as A. rewrite forallb_forall in A.
  specialize (A x H). unfold hex_ok in A.
  destruct (toHex x) as [| a [| b [| ? ?]]]; try discriminate.
  rewrite !andb_true_iff in A. destruct A as [[A1 A2] A3].
  apply leibniz_eq in A3. eauto 6.
Qed.

(** For a color built from integers in [0, 255], [toString('hex')] is [#]
    followed by six lowercase hexadecimal digits, and [fromHex] reads it back
    as the same color. *)
Theorem hex_round_trip (c : Color) :
  eight_bit c ->
  fromHex (toString_hex c) = Ok c /\
  exists d1 d2 d3 d4 d5 d6,
    toString_hex c = string_of_list_ascii ["#"%char; d1; d2; d3; d4; d5; d6] /\
    forallb is_hex_digit [d1; d2; d3; d4; d5; d6] = true.
Proof.
  intros E8. destruct (eight_bit_channels c E8) as (HR & HG & HB & Ic).
  destruct (toHex_channel _ HR) as (a1 & b1 & T1 & A1 & B1 & D1).
  destruct (toHex_channel _ HG) as (a2 & b2 & T2 & A2 & B2 & D2).
  destruct (toHex_channel _ HB) as (a3 & b3 & T3 & A3 & B3 & D3).
  unfold toString_hex. rewrite T1, T2, T3. cbn [append]. split.
  - unfold fromHex.
    change (slice _ 1 3) with (String a1 (String b1 "")).
    change (slice _ 3 5) with (String a2 (String b2 "")).
    change (slice _ 5 7) with (String a3 (String b3 "")).
    rewrite D1, D2, D3. exact Ic.
  - exists a1, b1, a2, b2, a3, b3. split; [reflexivity |].
    cbn [forallb]. rewrite A1, B1, A2, B2, A3, B3. reflexivity.
Qed.

Lemma hex_value_range (c : option ascii) : (0 <= hex_value c <= 15)%Z.
Proof.
  unfold hex_value. destruct c as [a |]; [| lia]. cbv zeta.
  destruct ((48 <=? _) && (_ <=? 57))%Z eqn:E1.
  - apply andb_true_iff in E1. lia.
  - destruct ((97 <=? _) && (_ <=? 102))%Z eqn:E2; [| lia].
    apply andb_true_iff in E2. lia.
Qed.

(** [fromHex] returns, for every string, a color whose components are
    integers in [0, 255]. *)
Theorem fromHex_eight_bit (s : string) :
  exists c, fromHex s = Ok c /\ eight_bit c.
Proof.
  destruct (new_Color_total
              (Some (of_Z (16 * hex_value (get 1 s) + hex_value (get 2 s))))
              (Some (of_Z (16 * hex_value (get 3 s) + hex_value (get 4 s))))
              (Some (of_Z (16 * hex_value (get 5 s) + hex_value (get 6 s)))))
    as [c H].
  exists c. rewrite fromHex_value. split; [exact H |].
  pose proof (hex_value_range (get 1 s)). pose proof (hex_value_range (get 2 s)).
  pose proof (hex_value_range (get 3 s)). pose proof (hex_value_range (get 4 s)).
  pose proof (hex_value_range (get 5 s)). pose proof (hex_value_range (get 6 s)).
  eexists _, _, _. repeat split; [.. | exact H]; lia.
Qed.

(** [fromHex] reads the six characters at positions 1 to 6 only: the first
    character, which need not be [#], and every character after the seventh
    have no effect. *)
Theorem fromHex_reads_positions_1_to_6 (s s' : string) :
  (forall i, (1 <= i <= 6)%nat -> get i s = get i s') ->
  fromHex s = fromHex s'.
Proof.
  intros H. rewrite !fromHex_value.
  rewrite (H 1%nat), (H 2%nat), (H 3%nat), (H 4%nat), (H 5%nat), (H 6%nat) by lia.
  reflexivity.
Qed.

Lemma fromHex_reads_positions_1_to_6_witness :
  (forall i, (1 <= i <= 6)%nat -> get i "#336699" = get i "x336699ff") /\
  fromHex "#336699" = fromHex "x336699ff".
Proof.
  assert (H : forall i, (1 <= i <= 6)%nat -> get i "#336699" = get i "x336699ff").
  { intros i Hi.
    destruct i as [| [| [| [| [| [| [| i]]]]]]]; try reflexivity; lia. }
  split; [exact H | apply (fromHex_reads_positions_1_to_6 _ _ H)].
Defined.

(** ** fromRGB *)

Lemma length_append (a b : string) :
  String.length (a ++ b) = (String.length a + String.length b)%nat.
Proof. induction a as [| c a IH]; simpl; [reflexivity | rewrite IH; reflexivity]. Qed.

Lemma substring_prefix (b t : string) :
  substring 0 (String.length b) (b ++ t) = b.
Proof.
  induction b as [| c b IH]; simpl.
  - destruct t; reflexivity.
  - rewrite IH. reflexivity.
Qed.

Lemma append_assoc (a b c : string) : ((a ++ b) ++ c = a ++ (b ++ c))%string.
Proof. induction a as [| x a IH]; simpl; [reflexivity | rewrite IH; reflexivity]. Qed.

(** [slice(4, -1)] drops four leading characters and the last one. *)
Lemma slice_4_last (p body : string) (l : ascii) :
  String.length p = 4%nat ->
  slice (p ++ body ++ String l "") 4 (-1) = body.
Proof.
  intros Hp.
  destruct p as [| c1 [| c2 [| c3 [| c4 [| ? ?]]]]]; try discriminate.
  unfold slice, rel_index.
  set (s := (String c1 (String c2 (String c3 (String c4 ""))) ++ body ++ String l "")%string).
  assert (L : Z.of_nat (String.length s) = (5 + Z.of_nat (String.length body))%Z).
  { subst s. rewrite !length_append. simpl String.length. lia. }
  rewrite L. cbn [Z.ltb Z.compare].
  replace (Z.min 4 (5 + Z.of_nat (String.length body))) with 4%Z by lia.
  replace (Z.max (5 + Z.of_nat (String.length body) + -1) 0)
    with (4 + Z.of_nat (String.length body))%Z by lia.
  subst s. cbn [append]. change (Z.to_nat 4) with 4%nat.
  destruct (4 <? 4 + Z.of_nat (String.length body))%Z eqn:E.
  - replace (Z.to_nat (4 + Z.of_nat (String.length body) - 4))
      with (String.length body) by lia.
    exact (substring_prefix body (String l "")).
  - apply Z.ltb_ge in E. destruct body; [reflexivity | cbn [String.length] in E; lia].
Qed.

Lemma split_field (a rest : string) :
  no_comma a = true ->
  split "," (a ++ String "," rest) = a :: split "," rest.
Proof.
  unfold no_comma. induction a as [| c a IH]; intros H.
  - reflexivity.
  - cbn [list_ascii_of_string forallb] in H. apply andb_true_iff in H.
    destruct H as [Hc Ha]. apply negb_true_iff in Hc.
    cbn [append split]. rewrite Hc, (IH Ha). reflexivity.
Qed.

Lemma split_last_field (a : string) :
  no_comma a = true -> split "," a = [a].
Proof.
  unfold no_comma. induction a as [| c a IH]; intros H.
  - reflexivity.
  - cbn [list_ascii_of_string forallb] in H. apply andb_true_iff in H.
    destruct H as [Hc Ha]. apply negb_true_iff in Hc.
    cbn [split]. rewrite Hc, (IH Ha). reflexivity.
Qed.

(** [fromRGB] drops the first four characters and the last one without
    looking at them, splits the rest at commas and converts each field to a
    number: three fields give [new Color] of the three numbers, and a single
    field gives the gray of its number. *)
Theorem fromRGB_fields (p a b c : string) (l : ascii) :
  String.length p = 4%nat ->
  no_comma a = true -> no_comma b = true -> no_comma c = true ->
  fromRGB (p ++ a ++ "," ++ b ++ "," ++ c ++ String l "")
  = new_Color (Some (StringToNumber a)) (Some (StringToNumber b))
              (Some (StringToNumber c)) /\
  fromRGB (p ++ a ++ String l "") = new_Color (Some (StringToNumber a)) None None.
Proof.
  intros Hp Ha Hb Hc. unfold fromRGB. split.
  - replace (p ++ a ++ "," ++ b ++ "," ++ c ++ String l "")%string
      with (p ++ (a ++ "," ++ b ++ "," ++ c) ++ String l "")%string.
    + rewrite (slice_4_last p _ l Hp).
      change ("," ++ b ++ "," ++ c)%string with (String "," (b ++ String "," c)).
      rewrite (split_field a _ Ha), (split_field b _ Hb), (split_last_field c Hc).
      reflexivity.
    + rewrite !append_assoc. reflexivity.
  - rewrite (slice_4_last p a l Hp), (split_last_field a Ha). cbn [nth_error plus_elem].
    unfold new_Color. cbn [or_else]. unfold or_num at 2 3.
    change (truthy nan) with false. reflexivity.
Qed.

Lemma fromRGB_fields_witness :
  String.length "rgb(" = 4%nat /\
  fromRGB "rgb(51, 102, 153)" = new_Color (Some 51) (Some 102) (Some 153).
Proof.
  split; [reflexivity |].
  exact (proj1 (fromRGB_fields "rgb(" "51" " 102" " 153" ")"
                  eq_refl eq_refl eq_refl eq_refl)).
Defined.

(** ** mix *)

Lemma is_nan_eq (x : number) : is_nan x = true -> x = nan.
Proof.
  intros H. apply Prim2SF_inj. change (Prim2SF nan) with S754_nan.
  destruct (Prim2SF x) eqn:E; try reflexivity;
    (assert (N : is_nan x = false) by (apply is_nan_false_iff; rewrite E; discriminate));
    congruence.
Qed.

(** [mix] returns a color for every weight; a weight that is omitted or does
    not convert to a number counts as 0.5. *)
Theorem mix_default_weight (a b : Color) (w : prim) :
  (exists m, mix a b w = Ok m) /\
  (is_nan (ToNumber w) = true -> mix a b w = mix a b (Num 0.5)).
Proof.
  split; [unfold mix; apply new_Color_total |].
  intros H. apply is_nan_eq in H. unfold mix.
  destruct w as [| n | s]; cbn [ToNumber] in *.
  - reflexivity.
  - subst n. reflexivity.
  - rewrite H. reflexivity.
Qed.

Lemma mix_default_weight_witness :
  is_nan (ToNumber Undefined) = true /\
  mix sample_color sample_color Undefined = mix sample_color sample_color (Num 0.5).
Proof.
  split; [reflexivity |].
  apply (mix_default_weight sample_color sample_color Undefined). reflexivity.
Defined.

(** For colors [a] and [b] built from integers in [0, 255]: [a.mix(b, 0)] is
    [a], [a.mix(b, 1)] is [b], and [a.mix(b, w)] is [b.mix(a, 1 - w)] for
    every weight [w] that [1 - (1 - w)] gives back, [w] and [1 - w] not 0. *)
Theorem mix_laws (a b : Color) :
  eight_bit a -> eight_bit b ->
  mix a b (Num 0) = Ok a /\ mix a b (Num 1) = Ok b /\
  (forall w, is_nan w = false -> strict_eq w 0 = false ->
             strict_eq (1 - w) 0 = false -> 1 - (1 - w) = w ->
             mix a b (Num w) = mix b a (Num (1 - w))).
Proof.
  intros (ra & ga & ba & Hra & Hga & Hba & Ha) (rb & gb & bb & Hrb & Hgb & Hbb & Hb).
  destruct (mix_ends ra ga ba rb gb bb a b Hra Hga Hba Hrb Hgb Hbb Ha Hb) as [E0 E1].
  repeat split; try assumption. intros w. apply mix_symmetric.
Qed.

(** ** typeCheck on a number *)

Lemma num_leb_not_ltb (a b : number) : (a <=? b) = true -> (b <? a) = false.
Proof.
  rewrite leb_spec, ltb_spec. unfold SFleb, SFltb.
  rewrite (SFcompare_antisym (Prim2SF a) (Prim2SF b)).
  destruct (SFcompare (Prim2SF a) (Prim2SF b)) as [[] |]; simpl; congruence.
Qed.

Lemma num_ltb_leb (a b : number) : (a <? b) = true -> (a <=? b) = true.
Proof.
  rewrite leb_spec, ltb_spec. unfold SFleb, SFltb.
  destruct (SFcompare (Prim2SF a) (Prim2SF b)) as [[] |]; simpl; congruence.
Qed.

(** A positive number is truthy and has no sign. *)
Lemma positive_number (n : number) :
  (0 <? n) = true ->
  is_nan n = false /\ truthy n = true /\ get_sign n = false.
Proof.
  intros P. destruct (num_ltb_not_nan _ _ P) as [_ N].
  assert (Z : is_zero n = false).
  { unfold is_zero, PrimFloat.zero. rewrite FloatAxioms.eqb_spec.
    rewrite ltb_spec in P. unfold SFltb in P. unfold SFeqb.
    rewrite (SFcompare_antisym (Prim2SF 0) (Prim2SF n)).
    destruct (SFcompare (Prim2SF 0) (Prim2SF n)) as [[] |]; simpl; congruence. }
  repeat split; try assumption.
  - unfold truthy. rewrite N, Z. reflexivity.
  - unfold get_sign. fold (is_zero n). rewrite Z.
    apply num_leb_not_ltb, num_ltb_leb, P.
Qed.

Lemma or_num_twice (g : number) : or_num g (or_num g 0) = or_num g 0.
Proof.
  unfold or_num. destruct (truthy g); reflexivity.
Qed.

(** [typeCheck] on a number returns a gray: its level is the number itself,
    not rounded, when the number is above 0 and below 255, it is 255 when the
    number is 255 or more, and 0 when the number is 0, negative or NaN. *)
Theorem typeCheck_number (n : number) :
  exists c, typeCheck (Prim (Num n)) = Ok c /\
    green c = red c /\ blue c = red c /\
    ((0 <? n) = true -> (n <? 255) = true -> red c = n) /\
    ((255 <=? n) = true -> red c = 255) /\
    ((n <=? 0) = true \/ is_nan n = true -> red c = 0).
Proof.
  cbn [typeCheck].
  destruct (new_Color_total (Some (min2 (max2 0 n) 255)) (Some (min2 (max2 0 n) 255))
              (Some (min2 (max2 0 n) 255))) as [c H].
  exists c. split; [exact H |].
  destruct (new_Color_rgb _ _ _ _ H) as (ER & EG & EB). cbn [or_else] in *.
  unfold red, green, blue. rewrite ER, EG, EB, or_num_twice.
  repeat split.
  - intros P U. destruct (positive_number n P) as (N & T & S).
    unfold max2. change (is_nan 0) with false. rewrite N, P. cbn [orb].
    unfold min2. change (is_nan 255) with false. rewrite N, U. cbn [orb].
    unfold or_num. rewrite T. reflexivity.
  - intros L.
    assert (P : (0 <? n) = true) by exact (num_ltb_leb_trans 0 255 n eq_refl L).
    destruct (positive_number n P) as (N & T & S).
    unfold max2. change (is_nan 0) with false. rewrite N, P. cbn [orb].
    unfold min2. change (is_nan 255) with false. rewrite N. cbn [orb].
    rewrite (num_leb_not_ltb _ _ L), S.
    destruct (255 <? n); reflexivity.
  - intros [L | N].
    + destruct (num_leb_not_nan _ _ L) as [N _].
      unfold max2. change (is_nan 0) with false. rewrite N. cbn [orb].
      rewrite (num_leb_not_ltb _ _ L).
      change (get_sign 0) with false.
      destruct (n <? 0); reflexivity.
    + apply is_nan_eq in N. subst n. reflexivity.
Qed.

(** ** ColorAlpha *)



(** ** Witnesses on the sample color *)

Ltac sample_is_eight_bit := exists 51%Z, 102%Z, 153%Z; repeat split; lia.

Lemma derived_values_bounds_witness :
  eight_bit sample_color /\
  ((0 <=? hsvVal sample_color) = true /\ (hsvVal sample_color <=? 1) = true).
Proof.
  split; [sample_is_eight_bit |].
  destruct (proj1 derived_values_bounds sample_color) as (H & _);
    [sample_is_eight_bit | exact H].
Defined.

Lemma grayscale_iff_equal_components_witness :
  eight_bit sample_color /\
  (strict_eq (hslSat sample_color) 0 = true <->
   red sample_color = green sample_color /\ green sample_color = blue sample_color).
Proof.
  split; [sample_is_eight_bit |].
  destruct (grayscale_iff_equal_components sample_color) as (H & _);
    [sample_is_eight_bit | exact H].
Defined.

Lemma complement_twice_witness :
  eight_bit sample_color /\
  exists c1 c2,
    complement sample_color = Ok c1 /\ complement c1 = Ok c2 /\ c2 = sample_color.
Proof.
  split; [sample_is_eight_bit |].
  destruct (complement_twice sample_color) as (c1 & c2 & H1 & H2 & _ & _ & _ & _ & E);
    [sample_is_eight_bit |].
  exists c1, c2. split; [exact H1 |]. split; [exact H2 |].
  apply E. split; intros H;
    apply (f_equal (fun z => PrimFloat.Leibniz.eqb z 255)) in H;
    vm_compute in H; discriminate.
Defined.

Lemma hex_round_trip_witness :
  eight_bit sample_color /\ fromHex (toString_hex sample_color) = Ok sample_color.
Proof.
  split; [sample_is_eight_bit |].
  destruct (hex_round_trip sample_color) as (H & _);
    [sample_is_eight_bit | exact H].
Defined.

Lemma mix_laws_witness :
  eight_bit sample_color /\
  mix sample_color sample_color (Num 0) = Ok sample_color /\
  mix sample_color sample_color (Num 0.25)
  = mix sample_color sample_color (Num (1 - 0.25)).
Proof.
  split; [sample_is_eight_bit |].
  destruct (mix_laws sample_color sample_color) as (E0 & _ & S);
    [sample_is_eight_bit | sample_is_eight_bit |].
  split; [exact E0 | apply S; reflexivity].
Defined.

Lemma constructor_invariants_witness :
  exists c, new_Color (Some 255) (Some 0) None = Ok c /\
    truthy (green c) = true /\ truthy (blue c) = true.
Proof.
  destruct (constructor_invariants (Some 255) (Some 0) None)
    as (c & H & _ & _ & _ & T & _).
  exists c. split; [exact H |]. apply T.
  injection H as <-. reflexivity.
Defined.

Lemma typeCheck_number_witness :
  exists c, typeCheck (Prim (Num 0.5)) = Ok c /\ red c = 0.5.
Proof.
  destruct (typeCheck_number 0.5) as (c & H & _ & _ & P & _).
  exists c. split; [exact H | apply P; reflexivity].
Defined.

(** ** What no operation returns *)

Lemma fromHSV_constructed (h s v : prim) (c : Color) :
  fromHSV h s v = Ok c -> constructed c.
Proof.
  unfold fromHSV. cbv zeta.
  match goal with
  | |- context [match ?r with Some _ => _ | None => _ end] => destruct r as [l |]
  end; [| discriminate].
  intros H. eexists _, _, _. exact H.
Qed.

Lemma fromHSL_constructed (h s l : prim) (c : Color) :
  fromHSL h s l = Ok c -> constructed c.
Proof.
  unfold fromHSL. cbv zeta.
  match goal with
  | |- context [match ?r with Some _ => _ | None => _ end] => destruct r as [l' |]
  end; [| discriminate].
  intros H. eexists _, _, _. exact H.
Qed.

Lemma fromHex_constructed (s : string) (c : Color) :
  fromHex s = Ok c -> constructed c.
Proof. rewrite fromHex_value. intros H. eexists _, _, _. exact H. Qed.

Lemma typeCheck_constructed (p : prim) (c : Color) :
  typeCheck (Prim p) = Ok c -> constructed c.
Proof.
  destruct p as [| n | s]; cbn [typeCheck].
  - intros H. eexists _, _, _. exact H.
  - intros H. eexists _, _, _. exact H.
  - destruct (String.eqb (slice s 0 1) "#");
      [intros H; exact (fromHex_constructed _ _ H) |].
    destruct (String.eqb (slice s 0 4) "rgb(");
      [intros H; eexists _, _, _; exact H |].
    destruct (String.eqb (slice s 0 4) "hsv(");
      [intros H; exact (fromHSV_constructed _ _ _ _ H) |].
    destruct (String.eqb (slice s 0 4) "hsl(");
      [intros H; exact (fromHSL_constructed _ _ _ _ H) |].
    intros H. eexists _, _, _. exact H.
Qed.

(** Every color that a factory or a method returns comes out of the
    constructor, so its green and blue are non-zero whenever its red is: no
    operation returns, for instance, pure red (255, 0, 0). *)
Theorem no_operation_returns_zero_beside_red (c : Color) :
  (exists h s v, fromHSV h s v = Ok c) \/ (exists h s l, fromHSL h s l = Ok c) \/
  (exists s, fromRGB s = Ok c) \/ (exists s, fromHex s = Ok c) \/
  (exists p, typeCheck (Prim p) = Ok c) \/
  (exists a, complement a = Ok c) \/ (exists a p, rotate a p = Ok c) \/
  (exists a p r, saturate a p r = Ok c) \/ (exists a p r, desaturate a p r = Ok c) \/
  (exists a p r, brighten a p r = Ok c) \/ (exists a p r, darken a p r = Ok c) \/
  (exists a b w, mix a b w = Ok c) ->
  constructed c /\
  (truthy (red c) = true -> truthy (green c) = true /\ truthy (blue c) = true) /\
  rgb c <> [255; 0; 0].
Proof.
  intros H.
  assert (K : constructed c).
  { destruct H as [(h & s & v & H) | [(h & s & l & H) | [(s & H) | [(s & H) |
      [(p & H) | [(a & H) | [(a & p & H) | [(a & p & r & H) | [(a & p & r & H) |
      [(a & p & r & H) | [(a & p & r & H) | (a & b & w & H)]]]]]]]]]]].
    - exact (fromHSV_constructed _ _ _ _ H).
    - exact (fromHSL_constructed _ _ _ _ H).
    - eexists _, _, _. exact H.
    - exact (fromHex_constructed _ _ H).
    - exact (typeCheck_constructed _ _ H).
    - eexists _, _, _. exact H.
    - exact (fromHSV_constructed _ _ _ _ H).
    - exact (fromHSL_constructed _ _ _ _ H).
    - exact (fromHSL_constructed _ _ _ _ H).
    - exact (fromHSL_constructed _ _ _ _ H).
    - exact (fromHSL_constructed _ _ _ _ H).
    - eexists _, _, _. exact H. }
  split; [exact K |]. destruct K as (r & g & b & K).
  pose proof (constructed_nonzero _ _ _ _ K) as Inv.
  split; [exact Inv |].
  intros E. injection E as ER EG EB.
  rewrite ER, EG in Inv. destruct (Inv eq_refl) as [T _].
  vm_compute in T. discriminate.
Qed.

Lemma no_operation_returns_zero_beside_red_witness :
  exists c, fromHSV (Num 0) (Num 1) (Num 1) = Ok c /\ rgb c <> [255; 0; 0].
Proof.
  destruct (new_Color_total (Some 255) (Some 0) (Some 0)) as [c H].
  exists c. split; [exact H |].
  apply (no_operation_returns_zero_beside_red c).
  left. exists (Num 0), (Num 1), (Num 1). exact H.
Defined.
